(** * OpenAI-to-AssemblyAI proxy: the transcription endpoint of [app/main.py]

    A shallow embedding of [create_transcription] and of
    [global_exception_handler].  Python strings are [string]s, dictionaries
    with string keys are [gmap string _], exceptions and logging are made
    explicit by a small trace-and-exception monad, and the collaborators the
    endpoint imports ([AssemblyAIClient], the helpers of [utils], the request
    model of [models]) are the fields of an environment record. *)

From Stdlib Require Import ZArith Ascii String List Lia Floats.SpecFloat.
From stdpp Require Import base gmap strings list fin_maps.

Set Warnings "-register-all".
Local Open Scope Z_scope.

(** ** Python string operations used by the endpoint *)

Module PyStr.

(** [c.lower()] on one character: the letters [A]..[Z] move to [a]..[z];
    every other character, also outside ASCII, is kept.  Python lowers
    non-ASCII letters too, but what it produces for them never completes
    one of the ASCII keywords the endpoint searches for. *)
Definition lower_char (c : ascii) : ascii :=
  let n := N_of_ascii c in
  if ((65 <=? n) && (n <=? 90))%N then ascii_of_N (n + 32) else c.

(** [s.lower()] *)
Fixpoint lower (s : string) : string :=
  match s with
  | EmptyString => EmptyString
  | String c s' => String (lower_char c) (lower s')
  end.

(** [s.startswith(p)] *)
Fixpoint startswith (p s : string) : bool :=
  match p, s with
  | EmptyString, _ => true
  | String a p', String b s' => Ascii.eqb a b && startswith p' s'
  | String _ _, EmptyString => false
  end.

(** [needle in hay] *)
Fixpoint str_in (needle hay : string) : bool :=
  startswith needle hay ||
  match hay with
  | EmptyString => false
  | String _ hay' => str_in needle hay'
  end.

(** [s[n:]] *)
Fixpoint slice_from (n : nat) (s : string) : string :=
  match n, s with
  | O, _ => s
  | S n', String _ s' => slice_from n' s'
  | S _, EmptyString => EmptyString
  end.

(** Truthiness of a [str]: the empty string is falsy. *)
Definition truthy (s : string) : bool :=
  match s with EmptyString => false | String _ _ => true end.

(** Truthiness of an [Optional[str]]: [None] and the empty string are falsy. *)
Definition opt_truthy (o : option string) : bool :=
  match o with None => false | Some s => truthy s end.

(** What "case-insensitive substring match" means, independently of how
    the code computes it: some slice of [m] spells [kw] up to letter case. *)
Definition occurs_ci (kw m : string) : Prop :=
  exists pre mid post,
    m = pre +:+ mid +:+ post /\ lower mid = lower kw.

End PyStr.

Import PyStr.

(** ** Values, dictionaries and the error envelope *)

(** A Python value as it can sit in a parameter dictionary: what
    [json.loads] produces, with the items of a nested object kept in order. *)
Inductive value :=
| VNone
| VBool (b : bool)
| VInt (n : Z)
| VFloat (f : spec_float)
| VStr (s : string)
| VList (l : list value)
| VDict (items : list (string * value)).

(** [v is None] *)
Definition is_none (v : value) : bool :=
  match v with VNone => true | _ => false end.

(** [o is None] on an [Optional[str]] *)
Definition opt_is_none (o : option string) : bool :=
  match o with None => true | Some _ => false end.

(** An [Optional[str]] stored as a dictionary value. *)
Definition of_opt_str (o : option string) : value :=
  match o with Some s => VStr s | None => VNone end.

(** [temperature != 0.0] on a float: both zeros compare equal to [0.0],
    every other float (also NaN) differs from it. *)
Definition float_nonzero (f : spec_float) : bool :=
  match f with S754_zero _ => false | _ => true end.

(** The error envelope [{ error: { message, type, code? } }]. *)
Record error_body := {
  err_message : string;
  err_type : string;
  err_code : option string
}.

(** Modelled from the spec: [format_openai_error] of [app/utils.py], which is
    not among the sources; the outbound error envelope has the shape
    [{ error: { message: string, type: string, code?: string } }] and the
    function fills it with its three arguments, [code] defaulting to [None]. *)
Definition format_openai_error
    (message error_type : string) (code : option string) : error_body :=
  {| err_message := message; err_type := error_type; err_code := code |}.

(** ** Exceptions, events and the endpoint monad *)

(** The exceptions the endpoint tells apart: FastAPI's [HTTPException], which
    it raises itself, [ValueError], which it catches around the client
    constructor, and every other subclass of [Exception]. *)
Inductive exn :=
| HTTPException (status_code : Z) (detail : error_body)
| ValueError (msg : string)
| OtherException (cls : string) (msg : string).

Definition is_http (e : exn) : bool :=
  match e with HTTPException _ _ => true | _ => false end.

Inductive outcome (A : Type) :=
| Return (a : A)
| Raise (e : exn).
Arguments Return {A} a.
Arguments Raise {A} e.

Inductive level := INFO | WARNING | ERROR.

(** What a log record interpolates into its message. *)
Inductive log_arg :=
| AStr (s : string)
| AOptStr (o : option string)
| AValue (v : value)
| AParams (d : gmap string value)
| AFloat (f : spec_float).

(** An uploaded file: its name and what [await file.read()] gives. *)
Record UploadFile := {
  filename : option string;
  read : outcome (list Byte.byte)
}.

(** The form fields and the header [create_transcription] receives. *)
Record Inbound := {
  authorization : option string;
  file : option UploadFile;
  model : string;
  language : option string;
  prompt : option string;
  response_format : string;
  temperature : spec_float;
  audio_url : option string
}.

Section Endpoint.

(** The provider client, the request model it is given, the transcript it
    returns and the payload sent back are opaque to the endpoint. *)
Context {client request transcript response : Type}.

(** The observable steps of one request, in the order they happen. *)
Inductive event :=
| Log (lvl : level) (template : string) (args : list log_arg)
| ClientInit (api_key : string)
| FileRead
| Upload (c : client) (content : list Byte.byte) (name : option string)
| Transcribe (c : client) (rq : request).

(** A computation emits events and then returns or raises. *)
Definition M (A : Type) : Type := list event * outcome A.

Definition ret {A} (a : A) : M A := ([], Return a).
Definition raise {A} (e : exn) : M A := ([], Raise e).
Definition pure_call {A} (r : outcome A) : M A := ([], r).
Definition call {A} (ev : event) (r : outcome A) : M A := ([ev], r).
Definition logger (lvl : level) (template : string) (args : list log_arg)
  : M unit := ([Log lvl template args], Return tt).

Definition bind {A B} (m : M A) (k : A -> M B) : M B :=
  match m with
  | (t, Return a) => let '(t', r) := k a in (t ++ t', r)
  | (t, Raise e) => (t, Raise e)
  end.

(** [try: m  except ...: h]; the handler answers [None] for an exception
    no [except] clause matches, which then propagates. *)
Definition try_except {A} (m : M A) (h : exn -> option (M A)) : M A :=
  match m with
  | (t, Return a) => (t, Return a)
  | (t, Raise e) =>
      match h e with
      | Some m' => let '(t', r) := m' in (t ++ t', r)
      | None => (t, Raise e)
      end
  end.

End Endpoint.

Arguments event : clear implicits.
Arguments M : clear implicits.

Declare Scope py_scope.
Delimit Scope py_scope with py.
Notation "'let*' x ':=' m 'in' k" := (bind m (fun x => k))
  (at level 10, x name, m at level 100, k at level 200, only parsing)
  : py_scope.
Notation "'let*' ' pat ':=' m 'in' k" :=
  (bind m (fun x => match x with pat => k end))
  (at level 10, pat pattern, m at level 100, k at level 200, only parsing)
  : py_scope.
Notation "m >> k" := (bind m (fun _ => k))
  (at level 100, k at level 200, right associativity, only parsing) : py_scope.

(** ** The error translator (lines 256-289) *)

(** The [if]/[elif] chain over [error_msg.lower()], giving
    [(status_code, error_type, code)]. *)
Definition translate_error (error_msg : string) : Z * string * string :=
  if str_in "timeout" (lower error_msg) then
    (408, "timeout_error", "transcription_timeout")
  else if str_in "invalid" (lower error_msg)
          || str_in "bad request" (lower error_msg) then
    (400, "invalid_request_error", "invalid_audio")
  else if str_in "unauthorized" (lower error_msg) then
    (401, "authentication_error", "invalid_api_key")
  else if str_in "not found" (lower error_msg) then
    (404, "not_found_error", "audio_not_found")
  else
    (500, "api_error", "transcription_failed").

(** The taxonomy the translator is specified against: five categories, tried
    in this order, each with its keywords, status, type tag and code. *)
Inductive category :=
| Timeout | InvalidRequest | Authentication | NotFound | GenericApi.

Definition rank (c : category) : nat :=
  match c with
  | Timeout => 0 | InvalidRequest => 1 | Authentication => 2
  | NotFound => 3 | GenericApi => 4
  end%nat.

Definition matches (c : category) (m : string) : Prop :=
  match c with
  | Timeout => occurs_ci "timeout" m
  | InvalidRequest => occurs_ci "invalid" m \/ occurs_ci "bad request" m
  | Authentication => occurs_ci "unauthorized" m
  | NotFound => occurs_ci "not found" m
  | GenericApi => True
  end.

(** [m] is classified as [c]: [c] matches and no category tried earlier does. *)
Definition classified (m : string) (c : category) : Prop :=
  matches c m /\ forall c', (rank c' < rank c)%nat -> ~ matches c' m.

Definition structured_error (c : category) : Z * string * string :=
  match c with
  | Timeout => (408, "timeout_error", "transcription_timeout")
  | InvalidRequest => (400, "invalid_request_error", "invalid_audio")
  | Authentication => (401, "authentication_error", "invalid_api_key")
  | NotFound => (404, "not_found_error", "audio_not_found")
  | GenericApi => (500, "api_error", "transcription_failed")
  end.

(** ** Merging the outbound parameters (lines 214-229) *)

(** [{**base_params, **config_dict}]: the keys of both, the value of
    [config_dict] where both have the key. *)
Definition merge_params (base_params config_dict : gmap string value)
  : gmap string value :=
  config_dict ∪ base_params.

(** [{k: v for k, v in merged_params.items() if v is not None}] *)
Definition drop_none (merged_params : gmap string value) : gmap string value :=
  filter (fun kv => is_none kv.2 = false) merged_params.

(** The dictionary literal of lines 215-223. *)
Definition base_params_of
    (final_audio_url : string) (language_code speech_model : option string)
    (word_boost speaker_diarization : value) : gmap string value :=
  <["audio_url" := VStr final_audio_url]>
  (<["language_code" := of_opt_str language_code]>
  (<["speech_model" := of_opt_str speech_model]>
  (<["word_boost" := word_boost]>
  (<["speaker_labels" := speaker_diarization]>
  (<["punctuate" := VBool true]>
  (<["format_text" := VBool true]> ∅)))))).

(** Lines 100-105: the key is what follows ["Bearer "], or the whole header. *)
Definition extract_api_key (auth_header : string) : string :=
  if startswith "Bearer " auth_header
  then slice_from 7 auth_header else auth_header.

(** ** The prompt configuration parser *)

Module Utils.
Section PromptParser.

(** What the parser relies on and the spec leaves open.  The search for an
    embedded object answers the candidate substring and the text without
    it, or [None] when the text holds no candidate.  The decoder is
    [json.loads]: it returns the decoded value or raises on text that is not
    JSON.  Each legacy pattern has the key and value it sets and a search
    that answers the text with the matched substring stripped. *)
Variable find_json_candidate : string -> option (string * string).
Variable json_loads : string -> outcome value.

Record legacy_pattern := {
  pattern_strip : string -> option string;
  pattern_key : string;
  pattern_value : value
}.

Variable legacy_patterns : list legacy_pattern.

(** Modelled from the spec: step 2 of the parser.  Each pattern found sets
    its key and is stripped from the residual. *)
Fixpoint scan_legacy (ps : list legacy_pattern)
    (config : gmap string value) (residual : string)
  : gmap string value * string :=
  match ps with
  | [] => (config, residual)
  | p :: ps' =>
      match pattern_strip p residual with
      | Some residual' =>
          scan_legacy ps' (<[pattern_key p := pattern_value p]> config)
            residual'
      | None => scan_legacy ps' config residual
      end
  end.

(** Modelled from the spec: step 1 of the parser.  The candidate is
    decoded; only a decoded object counts as a syntactically valid embedded
    JSON object.  The outcome of the decoder is passed on as it is: a
    decoder that raises makes this step raise. *)
Definition embedded_json_object (text : string)
  : outcome (option (gmap string value * string)) :=
  match find_json_candidate text with
  | Some (candidate, residual) =>
      match json_loads candidate with
      | Return (VDict items) =>
          Return (Some (list_to_map (reverse items), residual))
      | Return _ => Return None
      | Raise e => Raise e
      end
  | None => Return None
  end.

(** Modelled from the spec: [parse_prompt_for_config] of [app/utils.py],
    which is not among the sources.  Given an optional text it produces
    (configuration mapping, cleaned prompt): a syntactically valid embedded
    JSON object is the mapping and is removed from the text; otherwise the
    legacy patterns are scanned; malformed JSON, that is a decoder that
    raises, falls through to the scan instead of raising. *)
Definition parse_prompt_for_config (prompt : option string)
  : outcome (gmap string value * option string) :=
  match prompt with
  | None => Return (∅, None)
  | Some text =>
      let legacy :=
        let '(config, residual) := scan_legacy legacy_patterns ∅ text in
        Return (config, Some residual) in
      match embedded_json_object text with
      | Return (Some (config, residual)) => Return (config, Some residual)
      | Return None => legacy
      | Raise _ => legacy
      end
  end.



End PromptParser.
End Utils.

(** ** The collaborators of the endpoint *)

(** What [create_transcription] imports and calls.  Each call may return or
    raise; a field is the outcome of the call on given arguments. *)
Record Env {client request transcript response : Type} := {
  (** [AssemblyAIClient(api_key=...)] *)
  AssemblyAIClient : string -> outcome client;
  (** [client.upload_file(file_content, filename)] *)
  upload_file : client -> list Byte.byte -> option string -> outcome string;
  (** [client.transcribe(assemblyai_request)] *)
  transcribe : client -> request -> outcome transcript;
  (** [AssemblyAITranscriptionRequest], given [merged_params] as keywords *)
  AssemblyAITranscriptionRequest : gmap string value -> outcome request;
  validate_audio_url : string -> outcome bool;
  parse_prompt_for_config :
    option string -> outcome (gmap string value * option string);
  map_language_code : option string -> outcome (option string);
  map_openai_model_to_speech_model : string -> outcome (option string);
  parse_word_boost : option string -> outcome value;
  convert_assemblyai_to_openai_response :
    transcript -> string -> outcome response;
  (** [str(e)] for an [HTTPException], which is the framework's business *)
  http_exception_str : Z -> error_body -> string
}.
Arguments Env : clear implicits.

(** The response of [global_exception_handler]. *)
Record JSONResponse := {
  json_status_code : Z;
  json_content : error_body
}.

Section CreateTranscription.

Context {client request transcript response : Type}.
Variable env : Env client request transcript response.

Local Open Scope py_scope.
Local Abbreviation Act := (M client request).

(** [str(e)] *)
Definition exn_str (e : exn) : string :=
  match e with
  | HTTPException s d => http_exception_str env s d
  | ValueError msg => msg
  | OtherException _ msg => msg
  end.

(** Lines 122-134 and 238-249: the client constructor under its
    [except ValueError]. *)
Definition init_client (api_key : string) : Act client :=
  try_except
    (call (ClientInit api_key) (AssemblyAIClient env api_key))
    (fun e =>
       match e with
       | ValueError _ =>
           Some (logger ERROR "Failed to initialize AssemblyAI client: {}"
                   [AStr (exn_str e)] >>
                 raise (HTTPException 500
                   (format_openai_error "AssemblyAI API key not configured"
                      "api_error" (Some "missing_api_key"))))
       | _ => None
       end).

(** Lines 136-150: read and upload under [except Exception]. *)
Definition read_and_upload (c : client) (f : UploadFile) : Act string :=
  try_except
    (let* file_content := call FileRead (read f) in
     let* final_audio_url :=
       call (Upload c file_content (filename f))
            (upload_file env c file_content (filename f)) in
     logger INFO "File uploaded successfully: {}" [AStr final_audio_url] >>
     ret final_audio_url)
    (fun e =>
       Some (logger ERROR "Failed to upload file: {}" [AStr (exn_str e)] >>
             raise (HTTPException 400
               (format_openai_error
                  ("Failed to upload file: " +:+ exn_str e)
                  "invalid_request_error" (Some "file_upload_failed"))))).

(** Lines 116-177: the audio source.  Gives the client when the file branch
    made one, and [final_audio_url]. *)
Definition audio_source (rq : Inbound) (api_key : string)
  : Act (option client * string) :=
  match file rq with
  | Some f =>
      logger INFO "Received transcription request with file upload: {}"
        [AOptStr (filename f)] >>
      let* c := init_client api_key in
      let* final_audio_url := read_and_upload c f in
      ret (Some c, final_audio_url)
  | None =>
      match audio_url rq with
      | Some (String _ _ as url) =>
          logger INFO "Received transcription request for audio URL: {}"
            [AStr url] >>
          let* ok := pure_call (validate_audio_url env url) in
          if negb ok then
            logger WARNING "Invalid audio URL: {}" [AStr url] >>
            raise (HTTPException 400
              (format_openai_error
                 "Invalid audio URL format or unsupported audio type"
                 "invalid_request_error" (Some "invalid_audio_url")))
          else ret (None, url)
      | _ =>
          logger WARNING "No file or audio_url provided" [] >>
          raise (HTTPException 400
            (format_openai_error
               "Either 'file' or 'audio_url' parameter is required"
               "invalid_request_error" (Some "missing_audio_input")))
      end
  end.

(** Lines 251-289: the provider call under the error translator. *)
Definition perform_transcription (c : client) (assemblyai_request : request)
  : Act transcript :=
  try_except
    (let* assemblyai_response :=
       call (Transcribe c assemblyai_request)
            (transcribe env c assemblyai_request) in
     logger INFO "Transcription completed successfully" [] >>
     ret assemblyai_response)
    (fun e =>
       let error_msg := exn_str e in
       Some (logger ERROR "Transcription failed: {}" [AStr error_msg] >>
             let '(status_code, error_type, code) :=
               translate_error error_msg in
             raise (HTTPException status_code
               (format_openai_error error_msg error_type (Some code))))).

(** Lines 179-234: the merged parameters, as a function of what the
    parser and the mappers returned. *)
Definition merged_params_of
    (final_audio_url : string) (config_dict : gmap string value)
    (language_code speech_model : option string) (word_boost : value)
  : gmap string value :=
  let speaker_diarization :=
    default (VBool false) (config_dict !! "speaker_labels") in
  drop_none
    (merge_params
       (base_params_of final_audio_url language_code speech_model
          word_boost speaker_diarization)
       config_dict).

(** The body of the outer [try] (lines 88-302). *)
Definition create_transcription_body (rq : Inbound) : Act response :=
  match authorization rq with
  | Some (String _ _ as auth_header) =>
      let api_key := extract_api_key auth_header in
      if negb (truthy api_key) then
        raise (HTTPException 401
          (format_openai_error "Invalid authorization header format"
             "invalid_request_error" (Some "invalid_authorization")))
      else
      let* '(file_client, final_audio_url) := audio_source rq api_key in
      (if float_nonzero (temperature rq)
       then logger INFO "Temperature parameter '{}' ignored"
              [AFloat (temperature rq)]
       else ret tt) >>
      let* '(config_dict, cleaned_prompt) :=
        pure_call (parse_prompt_for_config env (prompt rq)) in
      logger INFO "Original prompt: '{}'" [AOptStr (prompt rq)] >>
      logger INFO "Parsed config: {}" [AParams config_dict] >>
      logger INFO "Cleaned prompt: '{}'" [AOptStr cleaned_prompt] >>
      let speaker_diarization :=
        default (VBool false) (config_dict !! "speaker_labels") in
      logger INFO "Speaker diarization enabled: {}"
        [AValue speaker_diarization] >>
      let* language_code := pure_call (map_language_code env (language rq)) in
      let* speech_model :=
        pure_call (map_openai_model_to_speech_model env (model rq)) in
      let* word_boost := pure_call (parse_word_boost env cleaned_prompt) in
      if truthy (model rq) && opt_is_none speech_model then
        logger WARNING
          "Invalid model parameter: '{}'. Valid values are: best, slam-1, universal"
          [AStr (model rq)] >>
        raise (HTTPException 400
          (format_openai_error
             ("Invalid model '" +:+ model rq +:+
              "'. Valid AssemblyAI speech models are: best, slam-1, universal")
             "invalid_request_error" (Some "invalid_model")))
      else
      (if truthy (model rq) && opt_truthy speech_model
       then logger INFO "Using AssemblyAI speech_model: '{}'"
              [AOptStr speech_model]
       else ret tt) >>
      let merged_params :=
        merged_params_of final_audio_url config_dict language_code
          speech_model word_boost in
      logger INFO "Final AssemblyAI request parameters: {}"
        [AParams merged_params] >>
      let* assemblyai_request :=
        pure_call (AssemblyAITranscriptionRequest env merged_params) in
      let* c := match file rq, file_client with
           | Some _, Some c => ret c
           | _, _ => init_client api_key
           end in
      let* assemblyai_response := perform_transcription c assemblyai_request in
      let* openai_response :=
        pure_call (convert_assemblyai_to_openai_response env
                     assemblyai_response (response_format rq)) in
      if String.eqb (response_format rq) "text" then ret openai_response
      else
        logger INFO "Transcription request completed successfully" [] >>
        ret openai_response
  | _ =>
      raise (HTTPException 401
        (format_openai_error "No authorization header provided"
           "invalid_request_error" (Some "missing_authorization")))
  end.

(** Lines 87 and 304-314: the outer [try] with its two [except] clauses. *)
Definition create_transcription (rq : Inbound) : Act response :=
  try_except (create_transcription_body rq)
    (fun e =>
       match e with
       | HTTPException _ _ => Some (raise e)
       | _ =>
           Some (logger ERROR "Unexpected error in transcription endpoint: {}"
                   [AStr (exn_str e)] >>
                 raise (HTTPException 500
                   (format_openai_error "Internal server error"
                      "api_error" None)))
       end).

(** Lines 50-60. *)
Definition global_exception_handler (exc : exn) : Act JSONResponse :=
  logger ERROR "Unhandled exception: {}" [AStr (exn_str exc)] >>
  ret {| json_status_code := 500;
         json_content :=
           format_openai_error "Internal server error" "api_error" None |}.

End CreateTranscription.

Arguments merged_params_of : simpl never.
Arguments translate_error : simpl never.
Arguments extract_api_key : simpl never.

(** [rq] with another temperature and every other field as it is. *)
Definition with_temperature (t : spec_float) (rq : Inbound) : Inbound :=
  {| authorization := authorization rq; file := file rq; model := model rq;
     language := language rq; prompt := prompt rq;
     response_format := response_format rq; temperature := t;
     audio_url := audio_url rq |}.

(** [rq] with another audio URL and every other field as it is. *)
Definition with_audio_url (u : option string) (rq : Inbound) : Inbound :=
  {| authorization := authorization rq; file := file rq; model := model rq;
     language := language rq; prompt := prompt rq;
     response_format := response_format rq; temperature := temperature rq;
     audio_url := u |}.

(** The key of a request that lines 88-115 let through, [None] for one
    they reject. *)
Definition credential (rq : Inbound) : option string :=
  match authorization rq with
  | Some (String _ _ as auth_header) =>
      let api_key := extract_api_key auth_header in
      if truthy api_key then Some api_key else None
  | _ => None
  end.

(** The response every unformatted failure is turned into. *)
Definition internal_server_error : exn :=
  HTTPException 500
    (format_openai_error "Internal server error" "api_error" None).

(** ** Views of a trace *)

Section Traces.

Context {client request : Type}.

(** The record of line 181. *)
Definition is_temperature_log (ev : event client request) : bool :=
  match ev with
  | Log INFO template [AFloat _] =>
      String.eqb template "Temperature parameter '{}' ignored"
  | _ => false
  end.

Definition is_log (ev : event client request) : bool :=
  match ev with Log _ _ _ => true | _ => false end.

(** A call that reaches the provider. *)
Definition is_provider_call (ev : event client request) : bool :=
  match ev with
  | ClientInit _ | Upload _ _ _ | Transcribe _ _ => true
  | _ => false
  end.

Definition is_upload (ev : event client request) : bool :=
  match ev with Upload _ _ _ => true | _ => false end.

Definition is_transcribe (ev : event client request) : bool :=
  match ev with Transcribe _ _ => true | _ => false end.

Definition provider_calls (t : list (event client request))
  : list (event client request) :=
  List.filter is_provider_call t.

Definition without_temperature_log (t : list (event client request))
  : list (event client request) :=
  List.filter (fun ev => negb (is_temperature_log ev)) t.

End Traces.

(** ** Postconditions of a run *)

Section Runs.

Context {client request : Type}.

(** [m] emits a trace and ends in an outcome that satisfy [Q]. *)
Definition run {A} (m : M client request A)
    (Q : list (event client request) -> outcome A -> Prop) : Prop :=
  Q m.1 m.2.

(** The steps of a trace other than its log records. *)
Definition actions (t : list (event client request))
  : list (event client request) :=
  List.filter (fun ev => negb (is_log ev)) t.

(** An event with the key of a constructor call blanked. *)
Definition forget_key (ev : event client request) : event client request :=
  match ev with
  | ClientInit _ => ClientInit EmptyString
  | _ => ev
  end.

(** Two computations that end alike and whose traces differ at most in the
    keys given to the client constructor. *)
Definition same_but_key {A} (m1 m2 : M client request A) : Prop :=
  m1.2 = m2.2 /\ List.map forget_key m1.1 = List.map forget_key m2.1.

(** The last record of a request that went through (line 301). *)
Definition completion_record : event client request :=
  Log INFO "Transcription request completed successfully" [].

End Runs.

(** [rq] with another authorization header and every other field as it
    is. *)
Definition with_header (h : option string) (rq : Inbound) : Inbound :=
  {| authorization := h; file := file rq; model := model rq;
     language := language rq; prompt := prompt rq;
     response_format := response_format rq; temperature := temperature rq;
     audio_url := audio_url rq |}.

(** Lines 116-166 give [final_audio_url] with the client [c]: the upload
    of what the file holds answers it, or it is the request's audio URL and
    passes validation. *)
Definition audio_obtained {client request transcript response : Type}
    (env : Env client request transcript response)
    (rq : Inbound) (c : client) (final_audio_url : string) : Prop :=
  match file rq with
  | Some f =>
      exists file_content,
        read f = Return file_content /\
        upload_file env c file_content (filename f) = Return final_audio_url
  | None =>
      audio_url rq = Some final_audio_url /\
      truthy final_audio_url = true /\
      validate_audio_url env final_audio_url = Return true
  end.

(** ** A concrete deployment, for running the endpoint on examples

    The client is its key, the request model is the parameter dictionary,
    transcript and payload are the text.  The constructor and the provider
    call are left open so that examples can make them fail. *)
Module Demo.

Definition env (init : string -> outcome string)
    (provider : outcome string)
    (word_boost : outcome value)
  : Env string (gmap string value) string string :=
  {| AssemblyAIClient := init;
     upload_file := fun _ _ _ => Return "https://cdn.example/upload/1";
     transcribe := fun _ _ => provider;
     AssemblyAITranscriptionRequest := fun d => Return d;
     validate_audio_url := fun _ => Return true;
     parse_prompt_for_config := fun p => Return (∅, p);
     map_language_code := fun l => Return l;
     map_openai_model_to_speech_model := fun m =>
       if String.eqb m "whisper-1" then Return (Some "best")
       else Return None;
     parse_word_boost := fun _ => word_boost;
     convert_assemblyai_to_openai_response := fun t _ => Return t;
     http_exception_str := fun _ d => err_message d |}.

(** Everything works and the provider hears "hello". *)
Definition ok_env := env Return (Return "hello") (Return (VList [])).

(** The provider call fails with the given message. *)
Definition failing_env (msg : string) :=
  env Return (Raise (OtherException "Exception" msg)) (Return (VList [])).

(** The client constructor refuses the key. *)
Definition keyless_env :=
  env (fun _ => Raise (ValueError "API key is required"))
      (Return "hello") (Return (VList [])).

(** The word-boost helper breaks. *)
Definition broken_env :=
  env Return (Return "hello")
      (Raise (OtherException "AttributeError" "no attribute split")).

Definition clip : UploadFile :=
  {| filename := Some "a.mp3"; read := Return [] |}.

(** Scenario 1 of the spec: an audio URL, [whisper-1], no prompt, a bearer
    token. *)
Definition url_request : Inbound :=
  {| authorization := Some "Bearer sk-test"; file := None;
     model := "whisper-1"; language := None; prompt := None;
     response_format := "json"; temperature := S754_zero false;
     audio_url := Some "https://x.com/a.mp3" |}.

Definition file_request : Inbound :=
  {| authorization := Some "Bearer sk-test"; file := Some clip;
     model := "whisper-1"; language := None; prompt := None;
     response_format := "json"; temperature := S754_zero false;
     audio_url := None |}.

(** Both audio sources at once. *)
Definition both_request : Inbound :=
  with_audio_url (Some "https://x.com/a.mp3") file_request.

(** No audio source. *)
Definition bare_request : Inbound := with_audio_url None url_request.

Definition with_authorization (h : option string) (rq : Inbound) : Inbound :=
  {| authorization := h; file := file rq; model := model rq;
     language := language rq; prompt := prompt rq;
     response_format := response_format rq; temperature := temperature rq;
     audio_url := audio_url rq |}.

Definition with_model (m : string) (rq : Inbound) : Inbound :=
  {| authorization := authorization rq; file := file rq; model := m;
     language := language rq; prompt := prompt rq;
     response_format := response_format rq; temperature := temperature rq;
     audio_url := audio_url rq |}.







(** The upload is refused. *)
Definition upload_refusing_env : Env string (gmap string value) string string :=
  {| AssemblyAIClient := Return;
     upload_file := fun _ _ _ =>
       Raise (OtherException "HTTPError" "413 Payload Too Large");
     transcribe := fun _ _ => Return "hello";
     AssemblyAITranscriptionRequest := fun d => Return d;
     validate_audio_url := fun _ => Return true;
     parse_prompt_for_config := fun p => Return (∅, p);
     map_language_code := fun l => Return l;
     map_openai_model_to_speech_model := fun m =>
       if String.eqb m "whisper-1" then Return (Some "best")
       else Return None;
     parse_word_boost := fun _ => Return (VList []);
     convert_assemblyai_to_openai_response := fun t _ => Return t;
     http_exception_str := fun _ d => err_message d |}.

(** No audio URL passes validation. *)
Definition strict_env : Env string (gmap string value) string string :=
  {| AssemblyAIClient := Return;
     upload_file := fun _ _ _ => Return "https://cdn.example/upload/1";
     transcribe := fun _ _ => Return "hello";
     AssemblyAITranscriptionRequest := fun d => Return d;
     validate_audio_url := fun _ => Return false;
     parse_prompt_for_config := fun p => Return (∅, p);
     map_language_code := fun l => Return l;
     map_openai_model_to_speech_model := fun m =>
       if String.eqb m "whisper-1" then Return (Some "best")
       else Return None;
     parse_word_boost := fun _ => Return (VList []);
     convert_assemblyai_to_openai_response := fun t _ => Return t;
     http_exception_str := fun _ d => err_message d |}.

(** The request model refuses every parameter set, as a validation error
    does. *)
Definition unbuildable_env : Env string (gmap string value) string string :=
  {| AssemblyAIClient := Return;
     upload_file := fun _ _ _ => Return "https://cdn.example/upload/1";
     transcribe := fun _ _ => Return "hello";
     AssemblyAITranscriptionRequest := fun _ =>
       Raise (ValueError "1 validation error for AssemblyAITranscriptionRequest");
     validate_audio_url := fun _ => Return true;
     parse_prompt_for_config := fun p => Return (∅, p);
     map_language_code := fun l => Return l;
     map_openai_model_to_speech_model := fun m =>
       if String.eqb m "whisper-1" then Return (Some "best")
       else Return None;
     parse_word_boost := fun _ => Return (VList []);
     convert_assemblyai_to_openai_response := fun t _ => Return t;
     http_exception_str := fun _ d => err_message d |}.

(** The constructor breaks with something that is not a [ValueError]. *)
Definition unreachable_env :=
  env (fun _ => Raise (OtherException "ConnectionError" "no route to host"))
      (Return "hello") (Return (VList [])).

(** One client whatever the key. *)
Definition shared_client_env :=
  env (fun _ => Return "client") (Return "hello") (Return (VList [])).

End Demo.

(* ================================================================== *)
(** * Properties *)
(** ** Strings: what the searches compute *)

Section StringFacts.

Lemma app_cons (a : ascii) (s t : string) :
  String a s +:+ t = String a (s +:+ t).
Proof. reflexivity. Qed.

Lemma app_empty_l (t : string) : EmptyString +:+ t = t.
Proof. reflexivity. Qed.

Lemma startswith_spec (p s : string) :
  startswith p s = true <-> exists post, s = p +:+ post.
Proof.
  revert s; induction p as [|a p IH]; intros s; simpl.
  - split; [intros _; exists s; reflexivity | reflexivity].
  - destruct s as [|b s].
    + split; [discriminate | intros [post H]; discriminate H].
    + rewrite andb_true_iff, Ascii.eqb_eq, IH. split.
      * intros [-> [post ->]]. exists post. reflexivity.
      * intros [post H]. rewrite app_cons in H.
        injection H as -> ->. eauto.
Qed.

Lemma str_in_spec (needle hay : string) :
  str_in needle hay = true <->
  exists pre post, hay = pre +:+ needle +:+ post.
Proof.
  induction hay as [|b hay IH]; simpl; rewrite orb_true_iff, startswith_spec.
  - split.
    + intros [[post H] | H]; [|discriminate].
      exists EmptyString, post. exact H.
    + intros [[|c pre] [post H]]; [left; eauto | discriminate H].
  - rewrite IH. split.
    + intros [[post H] | [pre [post H]]].
      * exists EmptyString, post. exact H.
      * exists (String b pre), post. rewrite app_cons. congruence.
    + intros [[|c pre] [post H]].
      * left. eauto.
      * right. rewrite app_cons in H. injection H as -> ->. eauto.
Qed.

Lemma lower_app (s t : string) : lower (s +:+ t) = lower s +:+ lower t.
Proof.
  induction s as [|a s IH]; [reflexivity|].
  rewrite app_cons. simpl. rewrite IH. reflexivity.
Qed.

(** A split of [lower m] comes from a split of [m]. *)
Lemma lower_app_inv (m a b : string) :
  lower m = a +:+ b ->
  exists a' b', m = a' +:+ b' /\ lower a' = a /\ lower b' = b.
Proof.
  revert m; induction a as [|c a IH]; intros m H.
  - exists EmptyString, m. auto.
  - destruct m as [|d m]; [discriminate H|].
    rewrite app_cons in H. simpl in H. injection H as Hc Hm.
    destruct (IH m Hm) as (a' & b' & -> & Ha & Hb).
    exists (String d a'), b'. simpl. rewrite Ha, Hc. auto.
Qed.

(** The search in the lowered message is the case-insensitive search. *)
Lemma str_in_lower (kw m : string) :
  lower kw = kw ->
  str_in kw (lower m) = true <-> occurs_ci kw m.
Proof.
  intros Hkw. rewrite str_in_spec. unfold occurs_ci. rewrite Hkw. split.
  - intros (pre & post & H).
    apply lower_app_inv in H as (pre' & rest & -> & _ & H).
    apply lower_app_inv in H as (mid & post' & -> & Hmid & _).
    exists pre', mid, post'. auto.
  - intros (pre & mid & post & -> & Hmid).
    exists (lower pre), (lower post).
    rewrite !lower_app, Hmid. reflexivity.
Qed.

Lemma str_in_lower_false (kw m : string) :
  lower kw = kw ->
  str_in kw (lower m) = false <-> ~ occurs_ci kw m.
Proof.
  intros Hkw. rewrite <- (str_in_lower kw m Hkw).
  destruct (str_in kw (lower m)); split; congruence.
Qed.

End StringFacts.

(** ** The error translator *)

Section ErrorTranslator.

(** The chain of tests picks a category that classifies the message and
    answers that category's triple. *)
Lemma translate_error_classified (m : string) :
  exists c, classified m c /\ translate_error m = structured_error c.
Proof.
  unfold translate_error.
  destruct (str_in "timeout" (lower m)) eqn:Ht.
  { exists Timeout. split; [split|reflexivity].
    - apply str_in_lower; auto.
    - intros c' Hr. destruct c'; simpl in Hr; lia. }
  destruct (str_in "invalid" (lower m)) eqn:Hi;
    [|destruct (str_in "bad request" (lower m)) eqn:Hb]; simpl.
  1,2: exists InvalidRequest; (split; [split|reflexivity]);
    [ first [left; apply str_in_lower; auto; fail
            |right; apply str_in_lower; auto]
    | intros c' Hr; destruct c'; simpl in Hr; try lia;
      apply str_in_lower_false; auto ..].
  destruct (str_in "unauthorized" (lower m)) eqn:Hu.
  { exists Authentication. split; [split|reflexivity].
    - apply str_in_lower; auto.
    - intros c' Hr. destruct c'; simpl in Hr; try lia; simpl.
      + apply str_in_lower_false; auto.
      + intros [H|H]; revert H; apply str_in_lower_false; auto. }
  destruct (str_in "not found" (lower m)) eqn:Hn.
  { exists NotFound. split; [split|reflexivity].
    - apply str_in_lower; auto.
    - intros c' Hr. destruct c'; simpl in Hr; try lia; simpl.
      + apply str_in_lower_false; auto.
      + intros [H|H]; revert H; apply str_in_lower_false; auto.
      + apply str_in_lower_false; auto. }
  exists GenericApi. split; [split|reflexivity].
  - exact I.
  - intros c' Hr. destruct c'; simpl in Hr; try lia; simpl.
    + apply str_in_lower_false; auto.
    + intros [H|H]; revert H; apply str_in_lower_false; auto.
    + apply str_in_lower_false; auto.
    + apply str_in_lower_false; auto.
Qed.

(** At most one category classifies a message. *)
Lemma classified_unique (m : string) (c c' : category) :
  classified m c -> classified m c' -> c = c'.
Proof.
  intros [Hc Hlt] [Hc' Hlt'].
  destruct (Nat.lt_trichotomy (rank c) (rank c')) as [H | [H | H]].
  - destruct (Hlt' c H Hc).
  - destruct c, c'; simpl in H; congruence.
  - destruct (Hlt c' H Hc').
Qed.

End ErrorTranslator.

(** ** Running the endpoint symbolically *)

(** Unfold the endpoint down to its case analyses. *)
Ltac unfold_endpoint :=
  unfold create_transcription, create_transcription_body, audio_source,
    init_client, read_and_upload, perform_transcription,
    bind, try_except, ret, raise, pure_call, call, logger.

(** Split on the innermost undecided test or call. *)
Ltac exec_step :=
  match goal with
  | |- context [match ?x with _ => _ end] =>
      lazymatch x with
      | context [match _ with _ => _ end] => fail
      | _ => destruct x eqn:?
      end
  end.

Ltac exec_simpl :=
  cbn -[merged_params_of translate_error extract_api_key String.eqb
        truthy opt_truthy String.append].

Ltac exec := unfold_endpoint; repeat (exec_simpl; exec_step); exec_simpl.

(** Find which event of a known trace a membership hypothesis speaks of. *)
Ltac pick_event H :=
  cbn [In fst snd] in H;
  repeat (destruct H as [H | H]; [try discriminate H|]); try contradiction H.

(** ** The error translator inside the endpoint (claim C1) *)

Section Translator.

Context {client request transcript response : Type}.
Variable env : Env client request transcript response.

(** A failed provider call leaves the endpoint as the exception the
    translator builds from [str(e)]. *)
Lemma failed_transcription_outcome
    (rq : Inbound) (c : client) (r : request) (e : exn) :
  In (Transcribe c r) (create_transcription env rq).1 ->
  transcribe env c r = Raise e ->
  (create_transcription env rq).2 =
    let '(status_code, error_type, code) :=
      translate_error (exn_str env e) in
    Raise (HTTPException status_code
             (format_openai_error (exn_str env e) error_type (Some code))).
Proof.
  intros Hin Hfail. revert Hin. exec; intros Hin; pick_event Hin.
  all: injection Hin as Hc Hr; subst.
  all: try match goal with
       | H : transcribe env _ _ = _ |- _ =>
           rewrite Hfail in H; try discriminate H; injection H as <-
       end.
  all: congruence.
Qed.

End Translator.

(** C1. Every upstream provider failure with message [m] is put in exactly
    one category, the first of timeout, invalid/bad request, unauthorized,
    not found whose keyword occurs in [m] whatever the letter case, and the
    generic api error when none does; the endpoint then answers that
    category's status (408, 400, 401, 404, 500), type and code with [m] as
    message.  A message with both "timeout" and "unauthorized" is a
    timeout_error with status 408. *)
Theorem upstream_failure_translated
    {client request transcript response : Type}
    (env : Env client request transcript response)
    (rq : Inbound) (c : client) (r : request) (e : exn) :
  In (Transcribe c r) (create_transcription env rq).1 ->
  transcribe env c r = Raise e ->
  let m := exn_str env e in
  exists cat,
    classified m cat /\
    (forall cat', classified m cat' -> cat' = cat) /\
    translate_error m = structured_error cat /\
    (create_transcription env rq).2 =
      Raise (HTTPException (structured_error cat).1.1
               (format_openai_error m (structured_error cat).1.2
                  (Some (structured_error cat).2))) /\
    List.map (fun k => (structured_error k).1.1)
      [Timeout; InvalidRequest; Authentication; NotFound; GenericApi]
      = [408; 400; 401; 404; 500] /\
    classified "Timeout while unauthorized" Timeout /\
    translate_error "Timeout while unauthorized"
      = (408, "timeout_error", "transcription_timeout").
Proof.
  intros Hin Hfail m.
  destruct (translate_error_classified m) as (cat & Hcat & Htr).
  exists cat. split; [exact Hcat|]. split.
  { intros cat' Hcat'. exact (classified_unique m cat' cat Hcat' Hcat). }
  split; [exact Htr|]. split.
  { rewrite (failed_transcription_outcome env rq c r e Hin Hfail).
    fold m. rewrite Htr. destruct (structured_error cat) as [[? ?] ?].
    reflexivity. }
  split; [reflexivity|]. split; [|reflexivity].
  destruct (translate_error_classified "Timeout while unauthorized")
    as (k & Hk & Hv).
  destruct k; try discriminate Hv. exact Hk.
Qed.

(** The scenario of the spec: the provider raises
    "Timeout while unauthorized" on a well-formed URL request. *)
Lemma upstream_failure_translated_witness :
  exists cat,
    classified "Timeout while unauthorized" cat /\
    (create_transcription (Demo.failing_env "Timeout while unauthorized")
       Demo.url_request).2 =
      Raise (HTTPException (structured_error cat).1.1
               (format_openai_error "Timeout while unauthorized"
                  (structured_error cat).1.2 (Some (structured_error cat).2))).
Proof.
  destruct (upstream_failure_translated
              (Demo.failing_env "Timeout while unauthorized")
              Demo.url_request "sk-test"
              (merged_params_of "https://x.com/a.mp3" ∅ None (Some "best")
                 (VList []))
              (OtherException "Exception" "Timeout while unauthorized"))
    as (cat & Hcat & _ & _ & Hout & _).
  - cbn -[merged_params_of]. repeat (first [left; reflexivity | right]).
  - reflexivity.
  - exists cat. split; [exact Hcat | exact Hout].
Defined.

(** ** Credential validation (claim C3) *)

(** C3, as the code has it.  A request whose authorization header is absent
    or empty is answered 401 with code missing_authorization, and a request
    whose non-empty header leaves an empty key once ["Bearer "] is stripped is
    answered 401 with code invalid_authorization; both errors carry the type
    invalid_request_error, and nothing is logged or called before them. *)
Theorem credential_validation
    {client request transcript response : Type}
    (env : Env client request transcript response) (rq : Inbound) :
  (opt_truthy (authorization rq) = false ->
   create_transcription env rq =
     ([], Raise (HTTPException 401
                   (format_openai_error "No authorization header provided"
                      "invalid_request_error"
                      (Some "missing_authorization"))))) /\
  (forall auth_header,
     authorization rq = Some auth_header ->
     truthy auth_header = true ->
     truthy (extract_api_key auth_header) = false ->
     create_transcription env rq =
       ([], Raise (HTTPException 401
                     (format_openai_error "Invalid authorization header format"
                        "invalid_request_error"
                        (Some "invalid_authorization"))))).
Proof.
  split.
  - intros Hmissing.
    unfold create_transcription, create_transcription_body.
    destruct (authorization rq) as [[|a h]|]; try discriminate Hmissing;
      reflexivity.
  - intros auth_header Hauth Hne Hkey.
    unfold create_transcription, create_transcription_body.
    rewrite Hauth. destruct auth_header as [|a h]; [discriminate Hne|].
    rewrite Hkey. reflexivity.
Qed.

(** The header is missing in one request and is the bare word ["Bearer "]
    in another. *)
Lemma credential_validation_witness :
  create_transcription Demo.ok_env
    (Demo.with_authorization None Demo.url_request) =
    ([], Raise (HTTPException 401
                  (format_openai_error "No authorization header provided"
                     "invalid_request_error"
                     (Some "missing_authorization")))) /\
  create_transcription Demo.ok_env
    (Demo.with_authorization (Some "Bearer ") Demo.url_request) =
    ([], Raise (HTTPException 401
                  (format_openai_error "Invalid authorization header format"
                     "invalid_request_error"
                     (Some "invalid_authorization")))).
Proof.
  split.
  - apply (proj1 (credential_validation Demo.ok_env
                    (Demo.with_authorization None Demo.url_request))).
    reflexivity.
  - apply (proj2 (credential_validation Demo.ok_env
                    (Demo.with_authorization (Some "Bearer ")
                       Demo.url_request)) "Bearer ");
      reflexivity.
Defined.

(** Against C3 as stated: with no header the error is of type
    invalid_request_error, not authentication_error; and an empty header,
    whose key is empty after stripping, is reported as
    missing_authorization, not invalid_authorization. *)
Lemma credential_errors_are_invalid_request :
  (exists d,
     (create_transcription Demo.ok_env
        (Demo.with_authorization None Demo.url_request)).2 =
       Raise (HTTPException 401 d) /\
     err_code d = Some "missing_authorization" /\
     err_type d = "invalid_request_error" /\
     err_type d <> "authentication_error") /\
  (exists d,
     extract_api_key EmptyString = EmptyString /\
     (create_transcription Demo.ok_env
        (Demo.with_authorization (Some EmptyString) Demo.url_request)).2 =
       Raise (HTTPException 401 d) /\
     err_code d = Some "missing_authorization" /\
     err_code d <> Some "invalid_authorization").
Proof.
  split.
  - eexists. split; [reflexivity|]. repeat split. discriminate.
  - eexists. split; [reflexivity|]. split; [reflexivity|].
    split; [reflexivity | discriminate].
Qed.


(** ** The audio source (claim C2) *)

Section AudioSource.

Context {client request transcript response : Type}.
Variable env : Env client request transcript response.

(** With no file and no usable URL the request is always refused as an
    invalid request, and nothing reaches the provider. *)
Lemma no_audio_source_refused (rq : Inbound) :
  file rq = None ->
  opt_truthy (audio_url rq) = false ->
  exists status d,
    (create_transcription env rq).2 = Raise (HTTPException status d) /\
    err_type d = "invalid_request_error" /\
    provider_calls (create_transcription env rq).1 = [].
Proof.
  intros Hfile Hurl. unfold_endpoint. rewrite Hfile.
  destruct (audio_url rq) as [[|a u]|]; try discriminate Hurl;
    repeat (exec_simpl; exec_step); exec_simpl;
    eexists _, _; repeat split; reflexivity.
Qed.

(** Once the credential is accepted, the refusal is the one of
    lines 168-177. *)
Lemma no_audio_source_after_credential (rq : Inbound) (api_key : string) :
  credential rq = Some api_key ->
  file rq = None ->
  opt_truthy (audio_url rq) = false ->
  create_transcription env rq =
    ([Log WARNING "No file or audio_url provided" []],
     Raise (HTTPException 400
              (format_openai_error
                 "Either 'file' or 'audio_url' parameter is required"
                 "invalid_request_error" (Some "missing_audio_input")))).
Proof.
  unfold credential. intros Hcred Hfile Hurl. unfold_endpoint.
  rewrite Hfile.
  destruct (authorization rq) as [[|a h]|]; try discriminate Hcred.
  destruct (truthy (extract_api_key (String a h))); [|discriminate Hcred].
  destruct (audio_url rq) as [[|b u]|]; try discriminate Hurl; reflexivity.
Qed.

(** When a file is there, the [elif] on the URL is never reached. *)
Lemma file_shadows_audio_url (rq : Inbound) (u : option string) :
  file rq <> None ->
  create_transcription env (with_audio_url u rq) =
  create_transcription env rq.
Proof.
  intros Hfile.
  unfold create_transcription, create_transcription_body, audio_source.
  cbn [with_audio_url authorization file model language prompt
       response_format temperature audio_url].
  destruct (file rq); [reflexivity | congruence].
Qed.

End AudioSource.

(** C2, as the code has it.  A request with neither a file nor a non-empty
    audio URL is always refused as an invalid_request_error without any call
    to the provider, and once its credential is accepted the refusal is
    status 400 with code missing_audio_input.  A request with both sources
    is not refused for that: the file is used and the URL is ignored. *)
Theorem audio_source_required
    {client request transcript response : Type}
    (env : Env client request transcript response) (rq : Inbound) :
  (file rq = None -> opt_truthy (audio_url rq) = false ->
   exists status d,
     (create_transcription env rq).2 = Raise (HTTPException status d) /\
     err_type d = "invalid_request_error" /\
     provider_calls (create_transcription env rq).1 = []) /\
  (forall api_key,
     credential rq = Some api_key ->
     file rq = None -> opt_truthy (audio_url rq) = false ->
     create_transcription env rq =
       ([Log WARNING "No file or audio_url provided" []],
        Raise (HTTPException 400
                 (format_openai_error
                    "Either 'file' or 'audio_url' parameter is required"
                    "invalid_request_error" (Some "missing_audio_input"))))) /\
  (forall u,
     file rq <> None ->
     create_transcription env (with_audio_url u rq) =
     create_transcription env rq).
Proof.
  split; [|split].
  - apply no_audio_source_refused.
  - apply no_audio_source_after_credential.
  - intros u. apply file_shadows_audio_url.
Qed.

(** A well-formed request without any audio, and one with a file to which a
    URL is added. *)
Lemma audio_source_required_witness :
  (create_transcription Demo.ok_env Demo.bare_request).2 =
    Raise (HTTPException 400
             (format_openai_error
                "Either 'file' or 'audio_url' parameter is required"
                "invalid_request_error" (Some "missing_audio_input"))) /\
  create_transcription Demo.ok_env Demo.both_request =
  create_transcription Demo.ok_env Demo.file_request.
Proof.
  split.
  - rewrite (proj1 (proj2 (audio_source_required Demo.ok_env
                             Demo.bare_request)) "sk-test");
      reflexivity.
  - apply (proj2 (proj2 (audio_source_required Demo.ok_env
                           Demo.file_request))).
    discriminate.
Defined.

(** Against C2 as stated: a request with both a file and an audio URL is
    served, the provider being called for the upload and the transcription;
    and a request with no audio and no authorization header is refused with
    401 missing_authorization, not 400 missing_audio_input. *)
Lemma both_sources_accepted :
  (file Demo.both_request <> None /\
   opt_truthy (audio_url Demo.both_request) = true /\
   (create_transcription Demo.ok_env Demo.both_request).2 = Return "hello" /\
   List.map (fun ev => is_upload ev || is_transcribe ev)
     (provider_calls (create_transcription Demo.ok_env Demo.both_request).1)
     = [false; true; true]) /\
  (file (Demo.with_authorization None Demo.bare_request) = None /\
   audio_url (Demo.with_authorization None Demo.bare_request) = None /\
   (create_transcription Demo.ok_env
      (Demo.with_authorization None Demo.bare_request)).2 =
     Raise (HTTPException 401
              (format_openai_error "No authorization header provided"
                 "invalid_request_error" (Some "missing_authorization")))).
Proof.
  split.
  - split; [discriminate|]. repeat split; reflexivity.
  - repeat split.
Qed.

(** ** Model validation (claim C6) *)

Section ModelValidation.

Context {client request transcript response : Type}.
Variable env : Env client request transcript response.

(** A non-empty model without a mapping never reaches [client.transcribe],
    whatever the rest of the request and the collaborators do. *)
Lemma unmapped_model_never_transcribed (rq : Inbound) :
  truthy (model rq) = true ->
  map_openai_model_to_speech_model env (model rq) = Return None ->
  Forall (fun ev => is_transcribe ev = false) (create_transcription env rq).1.
Proof.
  intros Hm Hs. unfold_endpoint. rewrite Hs, Hm.
  repeat (exec_simpl; exec_step); exec_simpl.
  all: repeat constructor.
Qed.

(** When the steps before line 199 all go through, the refusal is the one
    of lines 199-208. *)
Lemma unmapped_model_refused
    (rq : Inbound) (api_key : string) (t : list (event client request))
    (file_client : option client) (final_audio_url : string)
    (config_dict : gmap string value) (cleaned_prompt language_code : option string)
    (word_boost : value) :
  truthy (model rq) = true ->
  map_openai_model_to_speech_model env (model rq) = Return None ->
  credential rq = Some api_key ->
  audio_source env rq api_key = (t, Return (file_client, final_audio_url)) ->
  parse_prompt_for_config env (prompt rq) =
    Return (config_dict, cleaned_prompt) ->
  map_language_code env (language rq) = Return language_code ->
  parse_word_boost env cleaned_prompt = Return word_boost ->
  (create_transcription env rq).2 =
    Raise (HTTPException 400
             (format_openai_error
                ("Invalid model '" +:+ model rq +:+
                 "'. Valid AssemblyAI speech models are: best, slam-1, universal")
                "invalid_request_error" (Some "invalid_model"))).
Proof.
  unfold credential. intros Hm Hs Hcred Haudio Hparse Hlang Hboost.
  unfold create_transcription, create_transcription_body.
  destruct (authorization rq) as [[|a h]|]; try discriminate Hcred.
  destruct (truthy (extract_api_key (String a h))) eqn:Hkey;
    [|discriminate Hcred].
  injection Hcred as <-. cbn [negb]. rewrite Haudio.
  unfold bind, try_except, pure_call, logger, raise, ret.
  rewrite Hparse, Hlang, Hs, Hboost, Hm.
  destruct (float_nonzero (temperature rq)); reflexivity.
Qed.

End ModelValidation.

(** C6. A request with a non-empty model identifier that the mapping sends
    to no speech model never reaches the provider's transcription call; and
    at the orchestrator's third step, that is once the request has passed
    the credential check and obtained its audio URL and the prompt parser
    and the language and word-boost helpers have returned, the endpoint
    answers status 400 with code invalid_model. *)
Theorem invalid_model_rejected
    {client request transcript response : Type}
    (env : Env client request transcript response) (rq : Inbound) :
  truthy (model rq) = true ->
  map_openai_model_to_speech_model env (model rq) = Return None ->
  Forall (fun ev => is_transcribe ev = false) (create_transcription env rq).1 /\
  (forall api_key t file_client final_audio_url config_dict cleaned_prompt
          language_code word_boost,
     credential rq = Some api_key ->
     audio_source env rq api_key = (t, Return (file_client, final_audio_url)) ->
     parse_prompt_for_config env (prompt rq) =
       Return (config_dict, cleaned_prompt) ->
     map_language_code env (language rq) = Return language_code ->
     parse_word_boost env cleaned_prompt = Return word_boost ->
     exists d,
       (create_transcription env rq).2 = Raise (HTTPException 400 d) /\
       err_code d = Some "invalid_model" /\
       err_type d = "invalid_request_error").
Proof.
  intros Hm Hs. split.
  - apply unmapped_model_never_transcribed; assumption.
  - intros api_key t fc url cfg cleaned lang wb Hc Ha Hp Hl Hw.
    eexists. split; [|split].
    + eapply unmapped_model_refused; eassumption.
    + reflexivity.
    + reflexivity.
Qed.

(** Scenario 4 of the spec: [model="invalid-model-xyz"] on an otherwise
    well-formed URL request. *)
Lemma invalid_model_rejected_witness :
  exists d,
    (create_transcription Demo.ok_env
       (Demo.with_model "invalid-model-xyz" Demo.url_request)).2 =
      Raise (HTTPException 400 d) /\
    err_code d = Some "invalid_model".
Proof.
  destruct (invalid_model_rejected Demo.ok_env
              (Demo.with_model "invalid-model-xyz" Demo.url_request)
              eq_refl eq_refl) as [_ H].
  destruct (H "sk-test"
              [Log INFO "Received transcription request for audio URL: {}"
                 [AStr "https://x.com/a.mp3"]]
              None "https://x.com/a.mp3" ∅ None None (VList [])
              eq_refl eq_refl eq_refl eq_refl eq_refl)
    as (d & Hd & Hcode & _).
  exists d. split; assumption.
Defined.

(** ** The outer boundary (claim C8) *)

Section OuterBoundary.

Context {client request transcript response : Type}.
Variable env : Env client request transcript response.

(** The outer [try] lets a result and an [HTTPException] through and
    replaces anything else. *)
Lemma outer_handler_cases (rq : Inbound) :
  match (create_transcription_body env rq).2 with
  | Return r => (create_transcription env rq).2 = Return r
  | Raise (HTTPException s d) =>
      (create_transcription env rq).2 = Raise (HTTPException s d)
  | Raise _ => (create_transcription env rq).2 = Raise internal_server_error
  end.
Proof.
  unfold create_transcription, try_except, bind, logger, raise.
  destruct (create_transcription_body env rq) as [t [r | [s d | m | c m]]];
    reflexivity.
Qed.

End OuterBoundary.

(** C8. Whatever the request and the collaborators do, the endpoint returns
    or raises an [HTTPException], never anything else; a failure that leaves
    the body of the outer [try] without being an [HTTPException] becomes
    status 500 of type api_error with the fixed message
    "Internal server error", which does not depend on the failure; and the
    global handler answers every exception with the same status and body. *)
Theorem unformatted_failures_become_500
    {client request transcript response : Type}
    (env : Env client request transcript response) (rq : Inbound) :
  (forall e, (create_transcription env rq).2 = Raise e -> is_http e = true) /\
  (forall e,
     (create_transcription_body env rq).2 = Raise e ->
     is_http e = false ->
     (create_transcription env rq).2 =
       Raise (HTTPException 500
                (format_openai_error "Internal server error" "api_error"
                   None))) /\
  (forall exc,
     (global_exception_handler env exc).2 =
       Return {| json_status_code := 500;
                 json_content :=
                   format_openai_error "Internal server error" "api_error"
                     None |}).
Proof.
  pose proof (outer_handler_cases env rq) as H.
  split; [|split].
  - intros e He.
    destruct ((create_transcription_body env rq).2) as [r | [s d | m | c m]];
      rewrite H in He; try discriminate He; injection He as <-; reflexivity.
  - intros e He Hhttp. rewrite He in H.
    destruct e; [discriminate Hhttp | exact H | exact H].
  - intros exc. reflexivity.
Qed.

(** The word-boost helper breaks with an [AttributeError] on a well-formed
    request. *)
Lemma unformatted_failures_become_500_witness :
  (create_transcription_body Demo.broken_env Demo.url_request).2 =
    Raise (OtherException "AttributeError" "no attribute split") /\
  (create_transcription Demo.broken_env Demo.url_request).2 =
    Raise (HTTPException 500
             (format_openai_error "Internal server error" "api_error" None)).
Proof.
  split; [reflexivity|].
  apply (proj1 (proj2 (unformatted_failures_become_500 Demo.broken_env
                         Demo.url_request))
           (OtherException "AttributeError" "no attribute split"));
    reflexivity.
Defined.

(** ** A client that cannot be constructed (claim C10) *)

Section ClientConstruction.

Context {client request transcript response : Type}.
Variable env : Env client request transcript response.

Lemma refused_key_outcome (rq : Inbound) (api_key msg : string) :
  In (ClientInit api_key) (create_transcription env rq).1 ->
  AssemblyAIClient env api_key = Raise (ValueError msg) ->
  (create_transcription env rq).2 =
    Raise (HTTPException 500
             (format_openai_error "AssemblyAI API key not configured"
                "api_error" (Some "missing_api_key"))) /\
  Forall (fun ev => is_upload ev = false /\ is_transcribe ev = false)
    (create_transcription env rq).1.
Proof.
  intros Hin Hfail. revert Hin. exec; intros Hin; pick_event Hin.
  all: injection Hin as Hk; rewrite Hk in *.
  all: match goal with
       | H : AssemblyAIClient env _ = _ |- _ =>
           rewrite Hfail in H; try discriminate H; injection H as ?
       end.
  all: split; [reflexivity | repeat constructor].
Qed.

End ClientConstruction.

(** C10. In every run in which the client constructor is called and raises
    a [ValueError], on the file path as on the URL path, the endpoint
    answers status 500 of type api_error with code missing_api_key, and
    neither the upload nor the transcription is attempted. *)
Theorem client_construction_failure
    {client request transcript response : Type}
    (env : Env client request transcript response)
    (rq : Inbound) (api_key msg : string) :
  In (ClientInit api_key) (create_transcription env rq).1 ->
  AssemblyAIClient env api_key = Raise (ValueError msg) ->
  (create_transcription env rq).2 =
    Raise (HTTPException 500
             (format_openai_error "AssemblyAI API key not configured"
                "api_error" (Some "missing_api_key"))) /\
  Forall (fun ev => is_upload ev = false /\ is_transcribe ev = false)
    (create_transcription env rq).1.
Proof. apply refused_key_outcome. Qed.

(** The constructor refuses the key of a file request and of a URL
    request. *)
Lemma client_construction_failure_witness :
  (create_transcription Demo.keyless_env Demo.file_request).2 =
    Raise (HTTPException 500
             (format_openai_error "AssemblyAI API key not configured"
                "api_error" (Some "missing_api_key"))) /\
  (create_transcription Demo.keyless_env Demo.url_request).2 =
    Raise (HTTPException 500
             (format_openai_error "AssemblyAI API key not configured"
                "api_error" (Some "missing_api_key"))).
Proof.
  split.
  - refine (proj1 (client_construction_failure Demo.keyless_env
                     Demo.file_request "sk-test" "API key is required"
                     _ eq_refl)).
    cbn -[merged_params_of]. repeat (first [left; reflexivity | right]).
  - refine (proj1 (client_construction_failure Demo.keyless_env
                     Demo.url_request "sk-test" "API key is required"
                     _ eq_refl)).
    cbn -[merged_params_of]. repeat (first [left; reflexivity | right]).
Defined.

(** ** Merging and null-dropping (claims C4, C5) *)

Section MergedParams.

Lemma merge_params_config (base config : gmap string value) (k : string)
    (vc : value) :
  config !! k = Some vc -> merge_params base config !! k = Some vc.
Proof. intros Hc. unfold merge_params. apply lookup_union_Some_l, Hc. Qed.

Lemma merge_params_base (base config : gmap string value) (k : string) :
  config !! k = None -> merge_params base config !! k = base !! k.
Proof. intros Hc. unfold merge_params. apply lookup_union_r, Hc. Qed.

Lemma drop_none_lookup_Some (m : gmap string value) (k : string) (v : value) :
  drop_none m !! k = Some v <-> m !! k = Some v /\ v <> VNone.
Proof.
  unfold drop_none. rewrite map_lookup_filter_Some. cbn.
  split; intros [Hm Hv]; (split; [exact Hm|]).
  - intros ->. discriminate Hv.
  - destruct v; try reflexivity. contradiction.
Qed.

Lemma drop_none_lookup_None (m : gmap string value) (k : string) :
  drop_none m !! k = None <-> m !! k = None \/ m !! k = Some VNone.
Proof.
  destruct (drop_none m !! k) as [v|] eqn:Hd.
  - apply drop_none_lookup_Some in Hd as [Hm Hv].
    split; [discriminate|]. intros [H|H]; congruence.
  - split; [intros _|reflexivity].
    destruct (m !! k) as [v|] eqn:Hm; [|left; reflexivity].
    right. f_equal. destruct (is_none v) eqn:Hv; [destruct v; (reflexivity || discriminate Hv)|].
    assert (v <> VNone) as Hne by (intros ->; discriminate Hv).
    assert (drop_none m !! k = Some v) as Hs
      by (apply drop_none_lookup_Some; split; assumption).
    congruence.
Qed.

End MergedParams.

(** C4. In the merged outbound parameters every key present in both the
    defaults and the parsed configuration carries the configuration's value;
    with default [speaker_labels = False] and configuration
    [{speaker_labels: True}] the merge has [speaker_labels = True]; and the
    same holds of the parameters the endpoint builds: a key the configuration
    sets to a value other than [None] keeps that value. *)
Theorem config_wins_on_collision :
  (forall (base config : gmap string value) (k : string) (vb vc : value),
     base !! k = Some vb -> config !! k = Some vc ->
     merge_params base config !! k = Some vc) /\
  merge_params {["speaker_labels" := VBool false]}
    {["speaker_labels" := VBool true]} !! "speaker_labels"
  = Some (VBool true) /\
  (forall (url : string) (config : gmap string value)
     (lang sm : option string) (wb : value) (k : string) (vc : value),
     config !! k = Some vc -> vc <> VNone ->
     merged_params_of url config lang sm wb !! k = Some vc).
Proof.
  split; [|split].
  - intros base config k vb vc _ Hc. apply merge_params_config, Hc.
  - apply merge_params_config, lookup_singleton_eq.
  - intros url config lang sm wb k vc Hc Hv. unfold merged_params_of.
    apply drop_none_lookup_Some. split; [|exact Hv].
    apply merge_params_config, Hc.
Qed.

Lemma config_wins_on_collision_witness :
  merge_params {["language_code" := VStr "en"]}
    {["language_code" := VStr "fr"]} !! "language_code"
  = Some (VStr "fr").
Proof.
  apply (proj1 config_wins_on_collision
           {["language_code" := VStr "en"]} {["language_code" := VStr "fr"]}
           "language_code" (VStr "en") (VStr "fr")).
  - apply lookup_singleton_eq.
  - apply lookup_singleton_eq.
Defined.

(** C5. What is sent is the merged mapping without its [None] values: a key
    is missing from it exactly when it was missing from the merge or was
    [None] there, every other key keeps its value, and the parameters the
    endpoint builds never hold [None]. *)
Theorem none_values_dropped :
  (forall (merged : gmap string value) (k : string),
     drop_none merged !! k = None <->
     merged !! k = None \/ merged !! k = Some VNone) /\
  (forall (merged : gmap string value) (k : string) (v : value),
     merged !! k = Some v -> v <> VNone -> drop_none merged !! k = Some v) /\
  (forall (url : string) (config : gmap string value)
     (lang sm : option string) (wb : value) (k : string),
     merged_params_of url config lang sm wb !! k <> Some VNone).
Proof.
  split; [|split].
  - apply drop_none_lookup_None.
  - intros merged k v Hm Hv. apply drop_none_lookup_Some. split; assumption.
  - intros url config lang sm wb k H. unfold merged_params_of in H.
    apply drop_none_lookup_Some in H as [_ Hv]. apply Hv. reflexivity.
Qed.

Lemma none_values_dropped_witness :
  drop_none (<["language_code" := VNone]> {["punctuate" := VBool true]})
    !! "punctuate" = Some (VBool true).
Proof.
  apply (proj1 (proj2 none_values_dropped)).
  - reflexivity.
  - discriminate.
Defined.

(** ** The prompt parser (claim C7) *)

Section PromptParserFacts.

Variable find_json_candidate : string -> option (string * string).
Variable json_loads : string -> outcome value.
Variable legacy_patterns : list Utils.legacy_pattern.





Context {client request transcript response : Type}.
Variable env : Env client request transcript response.



End PromptParserFacts.



(** ** The temperature field (claim C9) *)

Section Temperature.
Context {client request transcript response : Type}.
Variable env : Env client request transcript response.

Lemma bind_returned {A B : Type} (t : list (event client request)) (a : A)
    (k : A -> M client request B) :
  bind (t, Return a) k = (t ++ (k a).1, (k a).2).
Proof. unfold bind. destruct (k a); reflexivity. Qed.

Lemma temperature_only_logged (rq : Inbound) (t : spec_float) :
  (create_transcription env (with_temperature t rq)).2 =
  (create_transcription env rq).2 /\
  without_temperature_log (create_transcription env (with_temperature t rq)).1
  = without_temperature_log (create_transcription env rq).1.
Proof.
  unfold create_transcription, create_transcription_body.
  cbn [with_temperature authorization file model language prompt
       response_format temperature audio_url].
  destruct (authorization rq) as [[|a h]|];
    [split; reflexivity | | split; reflexivity].
  destruct (negb (truthy (extract_api_key (String a h))));
    [split; reflexivity|].
  change (audio_source env (with_temperature t rq)) with (audio_source env rq).
  destruct (audio_source env rq (extract_api_key (String a h)))
    as [ta [[fc url] | e]]; [|split; reflexivity].
  rewrite !bind_returned. cbn beta iota.
  match goal with
  | |- context [bind (if float_nonzero t then _ else _) ?K] =>
      set (k := K); destruct (k tt) as [tk rk] eqn:Hk
  end.
  unfold without_temperature_log.
  destruct (float_nonzero t), (float_nonzero (temperature rq));
    cbn [bind try_except logger ret raise fst snd]; rewrite Hk;
    destruct rk as [r | [s d | m | c m]];
    cbn [bind try_except logger ret raise fst snd];
    (split; [reflexivity|]);
    rewrite ?List.filter_app; cbn [List.filter is_temperature_log negb app];
    try reflexivity.
Qed.

Lemma provider_calls_without_temperature_log
    (t : list (event client request)) :
  provider_calls (without_temperature_log t) = provider_calls t.
Proof.
  unfold provider_calls, without_temperature_log.
  induction t as [|ev t IH]; [reflexivity|].
  destruct ev as [lvl tpl args | k | | c b n | c r]; cbn [List.filter];
    try (cbn; rewrite IH; reflexivity).
  destruct (negb (is_temperature_log (Log lvl tpl args)));
    cbn; rewrite IH; reflexivity.
Qed.

End Temperature.

(** C9. Two requests that are the same but for their temperature give the
    same result or error and make the same provider calls with the same
    arguments, so the same merged request is sent; their traces differ at
    most by the log record saying that the temperature is ignored. *)
Theorem temperature_ignored
    {client request transcript response : Type}
    (env : Env client request transcript response)
    (rq : Inbound) (t : spec_float) :
  (create_transcription env (with_temperature t rq)).2 =
  (create_transcription env rq).2 /\
  provider_calls (create_transcription env (with_temperature t rq)).1 =
  provider_calls (create_transcription env rq).1 /\
  without_temperature_log (create_transcription env (with_temperature t rq)).1
  = without_temperature_log (create_transcription env rq).1.
Proof.
  destruct (temperature_only_logged env rq t) as [Hout Htrace].
  split; [exact Hout|]. split; [|exact Htrace].
  rewrite <- (provider_calls_without_temperature_log
                (create_transcription env (with_temperature t rq)).1).
  rewrite Htrace. apply provider_calls_without_temperature_log.
Qed.

(* ================================================================== *)
(** * Further properties of the endpoint *)

(** ** A program logic for runs *)

Section RunRules.

Context {client request : Type}.

Lemma run_intro {A} (m : M client request A) (Q : list (event client request) -> outcome A -> Prop) :
  Q m.1 m.2 -> run m Q.
Proof. trivial. Qed.

Lemma run_bind {A B} (m : M client request A) (k : A -> M client request B)
    (Q : list (event client request) -> outcome B -> Prop) :
  run m (fun t o =>
           match o with
           | Return a => run (k a) (fun t' o' => Q (t ++ t') o')
           | Raise e => Q t (Raise e)
           end) ->
  run (bind m k) Q.
Proof.
  unfold run, bind. destruct m as [t [a | e]]; cbn [fst snd]; [|trivial].
  destruct (k a) as [t' o']. trivial.
Qed.

Lemma run_try_except {A} (m : M client request A) (h : exn -> option (M client request A))
    (Q : list (event client request) -> outcome A -> Prop) :
  run m (fun t o =>
           match o with
           | Return a => Q t (Return a)
           | Raise e =>
               match h e with
               | Some m' => run m' (fun t' o' => Q (t ++ t') o')
               | None => Q t (Raise e)
               end
           end) ->
  run (try_except m h) Q.
Proof.
  unfold run, try_except. destruct m as [t [a | e]]; cbn [fst snd]; [trivial|].
  destruct (h e) as [[t' o']|]; trivial.
Qed.

(** A record that is logged or not, as a test decides: the continuation is
    run once, after a trace that is empty or that record. *)
Lemma run_bind_optional_log {B} (c : bool) (lvl : level) (template : string)
    (args : list log_arg) (k : unit -> M client request B)
    (Q : list (event client request) -> outcome B -> Prop) :
  (forall t, t = [] \/ t = [Log lvl template args] ->
             run (k tt) (fun t' o' => Q (t ++ t') o')) ->
  run (bind (if c then logger lvl template args else ret tt) k) Q.
Proof.
  intros H. apply run_bind. destruct c; cbn [logger ret run fst snd].
  - apply (H [Log lvl template args]). right. reflexivity.
  - apply (H []). left. reflexivity.
Qed.

End RunRules.

(** Split on the innermost scrutinee of a nest of case analyses. *)
Ltac destruct_scrutinee x :=
  match x with
  | context [match ?y with _ => _ end] => destruct_scrutinee y
  | _ => destruct x eqn:?
  end.

(** One step of a run: the rule of the head of the computation. *)
Ltac run_atom :=
  lazymatch goal with
  | |- run (bind (if _ then logger _ _ _ else ret tt) _) _ =>
      apply run_bind_optional_log; intros ? ?
  | |- run (bind _ _) _ => apply run_bind
  | |- run (try_except _ _) _ => apply run_try_except
  | |- run (init_client _ _) _ => unfold init_client
  | |- run (read_and_upload _ _ _) _ => unfold read_and_upload
  | |- run (perform_transcription _ _ _) _ => unfold perform_transcription
  | |- run (audio_source _ _ _) _ => unfold audio_source
  | |- run (create_transcription _ _) _ => unfold create_transcription
  | |- run (create_transcription_body _ _) _ =>
      unfold create_transcription_body
  | |- run (logger _ _ _) _ => apply run_intro; cbn [logger fst snd]
  | |- run (ret _) _ => apply run_intro; cbn [ret fst snd]
  | |- run (raise _) _ => apply run_intro; cbn [raise fst snd]
  | |- run (pure_call ?r) _ =>
      apply run_intro; cbn [pure_call fst snd]; destruct r eqn:?
  | |- run (call _ ?r) _ =>
      apply run_intro; cbn [call fst snd]; destruct r eqn:?
  | |- run (if ?c then _ else _) _ => destruct c eqn:?
  | |- run (match ?x with _ => _ end) _ => destruct x eqn:?
  | |- match ?x with _ => _ end => destruct_scrutinee x
  end.

Ltac run_all := repeat (run_atom; cbn beta iota).

(** State a goal about the trace of [m], or about its trace and outcome, as
    a postcondition that stays folded during the run. *)
Ltac run_trace m :=
  pattern (m.1);
  lazymatch goal with
  | |- ?P _ =>
      let Q := fresh "Q" in
      let HQ := fresh "HeqQ" in
      pose (Q := P); change (run m (fun t _ => Q t));
      assert (HQ : Q = P) by reflexivity; clearbody Q
  end.

Ltac run_both m :=
  pattern (m.2); pattern (m.1);
  lazymatch goal with
  | |- (fun t => (fun o => @?P t o) _) _ =>
      let Q := fresh "Q" in
      let HQ := fresh "HeqQ" in
      pose (Q := P); change (run m Q);
      assert (HQ : Q = P) by reflexivity; clearbody Q
  end.

(** At a leaf: settle the records that were logged or not. *)
Ltac optional_logs :=
  repeat match goal with
         | H : _ = [] \/ _ = [_] |- _ => destruct H as [-> | ->]
         end.

(** ** What reaches the provider, and in which order *)

Section Protocol.

Context {client request transcript response : Type}.
Variable env : Env client request transcript response.

Lemma call_protocol (rq : Inbound) :
  match credential rq with
  | None => (create_transcription env rq).1 = []
  | Some k =>
      let acts := actions (create_transcription env rq).1 in
      match file rq with
      | Some f =>
          acts = [ClientInit k] \/
          exists c, AssemblyAIClient env k = Return c /\
            (acts = [ClientInit k; FileRead] \/
             exists content, read f = Return content /\
               (acts = [ClientInit k; FileRead; Upload c content (filename f)]
                \/ exists r,
                   acts = [ClientInit k; FileRead;
                           Upload c content (filename f); Transcribe c r]))
      | None =>
          acts = [] \/ acts = [ClientInit k] \/
          exists c r, AssemblyAIClient env k = Return c /\
                      acts = [ClientInit k; Transcribe c r]
      end
  end.
Proof.
  unfold credential.
  destruct (authorization rq) as [[|a h]|] eqn:Hauth.
  1,3: unfold create_transcription, create_transcription_body;
       rewrite Hauth; reflexivity.
  destruct (truthy (extract_api_key (String a h))) eqn:Hkey.
  2: unfold create_transcription, create_transcription_body;
     rewrite Hauth, Hkey; reflexivity.
  cbv zeta. run_trace (create_transcription env rq).
  unfold create_transcription, create_transcription_body.
  rewrite Hauth, Hkey. cbn [negb].
  run_all.
  all: subst Q; optional_logs; cbn [actions List.filter is_log negb app].
  all: solve
    [ left; reflexivity
    | right; left; reflexivity
    | right; right; do 2 eexists; split; [reflexivity | reflexivity]
    | right; eexists; split; [reflexivity|];
      solve [ left; reflexivity
            | right; eexists; split; [reflexivity|];
              solve [ left; reflexivity | right; eexists; reflexivity ] ] ].
Qed.

End Protocol.

(** X1. What a request does besides logging follows one protocol.  Without
    an accepted credential nothing happens at all, not even a log record.
    With a file: the client is constructed with the credential, then the
    file is read, then uploaded with that client under its own name, then
    the transcription is asked of the same client, each step at most once
    and only after the one before.  Without a file: nothing, or the
    construction with the credential, or the construction followed by one
    transcription with the client constructed. *)
Theorem provider_call_protocol
    {client request transcript response : Type}
    (env : Env client request transcript response) (rq : Inbound) :
  match credential rq with
  | None => (create_transcription env rq).1 = []
  | Some k =>
      let acts := actions (create_transcription env rq).1 in
      match file rq with
      | Some f =>
          acts = [ClientInit k] \/
          exists c, AssemblyAIClient env k = Return c /\
            (acts = [ClientInit k; FileRead] \/
             exists content, read f = Return content /\
               (acts = [ClientInit k; FileRead; Upload c content (filename f)]
                \/ exists r,
                   acts = [ClientInit k; FileRead;
                           Upload c content (filename f); Transcribe c r]))
      | None =>
          acts = [] \/ acts = [ClientInit k] \/
          exists c r, AssemblyAIClient env k = Return c /\
                      acts = [ClientInit k; Transcribe c r]
      end
  end.
Proof. apply call_protocol. Qed.

(** ** A constructor that breaks otherwise than by [ValueError] *)

Section ConstructorBreaks.

Context {client request transcript response : Type}.
Variable env : Env client request transcript response.

(** The constructor is only ever given the credential of the request. *)
Lemma constructed_with_credential (rq : Inbound) (api_key : string) :
  In (ClientInit api_key) (create_transcription env rq).1 ->
  credential rq = Some api_key.
Proof.
  intros Hin.
  assert (In (ClientInit api_key) (actions (create_transcription env rq).1))
    as Hact by (apply List.filter_In; split; [exact Hin | reflexivity]).
  pose proof (call_protocol env rq) as P.
  destruct (credential rq) as [k|]; [|rewrite P in Hin; contradiction Hin].
  cbv zeta in P.
  destruct (file rq) as [f|].
  - destruct P as [P | (c & _ & [P | (content & _ & [P | (r & P)])])];
      rewrite P in Hact; pick_event Hact; congruence.
  - destruct P as [P | [P | (c & r & _ & P)]];
      rewrite P in Hact; pick_event Hact; congruence.
Qed.

Lemma broken_constructor_outcome (rq : Inbound) (api_key : string) (e : exn) :
  In (ClientInit api_key) (create_transcription env rq).1 ->
  AssemblyAIClient env api_key = Raise e ->
  (forall msg, e <> ValueError msg) ->
  (create_transcription env rq).2 =
    Raise (if is_http e then e else internal_server_error) /\
  Forall (fun ev => is_upload ev = false /\ is_transcribe ev = false)
    (create_transcription env rq).1.
Proof.
  intros Hin Hfail Hne.
  pose proof (constructed_with_credential rq api_key Hin) as Hcred.
  unfold credential in Hcred.
  destruct (authorization rq) as [[|a h]|] eqn:Hauth; try discriminate Hcred.
  destruct (truthy (extract_api_key (String a h))) eqn:Hkey;
    [|discriminate Hcred].
  injection Hcred as <-. revert Hin.
  run_both (create_transcription env rq).
  unfold create_transcription, create_transcription_body, audio_source,
    init_client.
  rewrite Hauth, Hkey, ?Hfail. cbn [negb].
  run_all.
  all: subst Q; optional_logs; cbn [app]; intros Hin.
  all: try (pick_event Hin; fail).
  all: try (exfalso; eapply Hne; reflexivity).
  all: split; [reflexivity | repeat constructor].
Qed.

End ConstructorBreaks.

(** X2. In every run in which the client constructor is called and raises
    something other than a [ValueError], the [except ValueError] clause does
    not apply: an [HTTPException] reaches the caller as it is, anything else
    as the fixed 500 api_error "Internal server error" without a code; and
    neither the upload nor the transcription is attempted. *)
Theorem unexpected_constructor_failure
    {client request transcript response : Type}
    (env : Env client request transcript response)
    (rq : Inbound) (api_key : string) (e : exn) :
  In (ClientInit api_key) (create_transcription env rq).1 ->
  AssemblyAIClient env api_key = Raise e ->
  (forall msg, e <> ValueError msg) ->
  (create_transcription env rq).2 =
    Raise (if is_http e then e else internal_server_error) /\
  Forall (fun ev => is_upload ev = false /\ is_transcribe ev = false)
    (create_transcription env rq).1.
Proof. apply broken_constructor_outcome. Qed.

Lemma unexpected_constructor_failure_witness :
  (create_transcription Demo.unreachable_env Demo.url_request).2 =
    Raise (HTTPException 500
             (format_openai_error "Internal server error" "api_error" None)).
Proof.
  refine (proj1 (unexpected_constructor_failure Demo.unreachable_env
                   Demo.url_request "sk-test"
                   (OtherException "ConnectionError" "no route to host")
                   _ eq_refl _)).
  - cbn -[merged_params_of]. repeat (first [left; reflexivity | right]).
  - discriminate.
Defined.

(** ** The audio source: what its failures are answered with *)

Section AudioFailures.

Context {client request transcript response : Type}.
Variable env : Env client request transcript response.

(** The credential check of lines 88-115 as the body performs it. *)
Lemma credential_accepted (rq : Inbound) (api_key : string) :
  credential rq = Some api_key ->
  exists a h,
    authorization rq = Some (String a h) /\
    extract_api_key (String a h) = api_key /\
    truthy (extract_api_key (String a h)) = true.
Proof.
  unfold credential. intros H.
  destruct (authorization rq) as [[|a h]|]; try discriminate H.
  destruct (truthy (extract_api_key (String a h))) eqn:Hkey;
    [|discriminate H].
  injection H as <-. eauto.
Qed.

(** Lines 136-150: whatever stops the read or the upload, also an
    [HTTPException], is reported with its own text. *)
Lemma read_and_upload_failure (c : client) (f : UploadFile) (e : exn) :
  read f = Raise e \/
  (exists file_content,
     read f = Return file_content /\
     upload_file env c file_content (filename f) = Raise e) ->
  (read_and_upload env c f).2 =
    Raise (HTTPException 400
             (format_openai_error ("Failed to upload file: " +:+ exn_str env e)
                "invalid_request_error" (Some "file_upload_failed"))) /\
  Forall (fun ev => is_transcribe ev = false) (read_and_upload env c f).1.
Proof.
  unfold read_and_upload, try_except, bind, call, logger, raise, ret.
  intros [Hread | (content & Hread & Hup)]; rewrite Hread; [|rewrite Hup];
    cbn [fst snd app]; (split; [reflexivity | repeat constructor]).
Qed.

Lemma upload_failure_outcome
    (rq : Inbound) (api_key : string) (f : UploadFile) (c : client) (e : exn) :
  credential rq = Some api_key ->
  file rq = Some f ->
  AssemblyAIClient env api_key = Return c ->
  read f = Raise e \/
  (exists file_content,
     read f = Return file_content /\
     upload_file env c file_content (filename f) = Raise e) ->
  (create_transcription env rq).2 =
    Raise (HTTPException 400
             (format_openai_error ("Failed to upload file: " +:+ exn_str env e)
                "invalid_request_error" (Some "file_upload_failed"))) /\
  Forall (fun ev => is_transcribe ev = false) (create_transcription env rq).1.
Proof.
  intros Hcred Hfile Hinit Hfail.
  destruct (credential_accepted rq api_key Hcred) as (a & h & Hauth & <- & Hkey).
  destruct (read_and_upload_failure c f e Hfail) as [Hout Htrace].
  unfold create_transcription, create_transcription_body, audio_source,
    init_client.
  rewrite Hauth, Hkey, Hfile, Hinit. cbn [negb].
  unfold try_except, bind, call, logger, raise, ret. cbn [fst snd app].
  destruct (read_and_upload env c f) as [t o]. cbn [fst snd] in Hout, Htrace.
  subst o. cbn [fst snd app].
  split; [reflexivity|]. repeat constructor.
  rewrite List.app_nil_r. exact Htrace.
Qed.

(** Lines 152-165: a URL that fails validation is refused before anything
    reaches the provider. *)
Lemma invalid_audio_url_outcome (rq : Inbound) (api_key url : string) :
  credential rq = Some api_key ->
  file rq = None ->
  audio_url rq = Some url ->
  truthy url = true ->
  validate_audio_url env url = Return false ->
  (create_transcription env rq).2 =
    Raise (HTTPException 400
             (format_openai_error
                "Invalid audio URL format or unsupported audio type"
                "invalid_request_error" (Some "invalid_audio_url"))) /\
  actions (create_transcription env rq).1 = [].
Proof.
  intros Hcred Hfile Hurl Htruthy Hvalid.
  destruct (credential_accepted rq api_key Hcred) as (a & h & Hauth & <- & Hkey).
  unfold create_transcription, create_transcription_body, audio_source.
  rewrite Hauth, Hkey, Hfile, Hurl. cbn [negb].
  destruct url as [|u url']; [discriminate Htruthy|].
  rewrite Hvalid. split; reflexivity.
Qed.

End AudioFailures.

(** X3. When the client is constructed and the read of the uploaded file or
    the upload itself raises, whatever the exception, the endpoint answers
    400 invalid_request_error with code file_upload_failed and the message
    ["Failed to upload file: "] followed by the text of the exception, and
    the transcription is never attempted. *)
Theorem upload_failure_reported
    {client request transcript response : Type}
    (env : Env client request transcript response)
    (rq : Inbound) (api_key : string) (f : UploadFile) (c : client) (e : exn) :
  credential rq = Some api_key ->
  file rq = Some f ->
  AssemblyAIClient env api_key = Return c ->
  read f = Raise e \/
  (exists file_content,
     read f = Return file_content /\
     upload_file env c file_content (filename f) = Raise e) ->
  (create_transcription env rq).2 =
    Raise (HTTPException 400
             (format_openai_error ("Failed to upload file: " +:+ exn_str env e)
                "invalid_request_error" (Some "file_upload_failed"))) /\
  Forall (fun ev => is_transcribe ev = false) (create_transcription env rq).1.
Proof. apply upload_failure_outcome. Qed.

Lemma upload_failure_reported_witness :
  (create_transcription Demo.upload_refusing_env Demo.file_request).2 =
    Raise (HTTPException 400
             (format_openai_error
                "Failed to upload file: 413 Payload Too Large"
                "invalid_request_error" (Some "file_upload_failed"))).
Proof.
  refine (proj1 (upload_failure_reported Demo.upload_refusing_env
                   Demo.file_request "sk-test" Demo.clip "sk-test"
                   (OtherException "HTTPError" "413 Payload Too Large")
                   eq_refl eq_refl eq_refl _)).
  right. exists []. split; reflexivity.
Defined.

(** X4. A request with an accepted credential, no file and a non-empty audio
    URL that the validator refuses is answered 400 invalid_request_error
    with code invalid_audio_url, and nothing but log records happens: no
    client is constructed and the provider is not called. *)
Theorem invalid_audio_url_rejected
    {client request transcript response : Type}
    (env : Env client request transcript response)
    (rq : Inbound) (api_key url : string) :
  credential rq = Some api_key ->
  file rq = None ->
  audio_url rq = Some url ->
  truthy url = true ->
  validate_audio_url env url = Return false ->
  (create_transcription env rq).2 =
    Raise (HTTPException 400
             (format_openai_error
                "Invalid audio URL format or unsupported audio type"
                "invalid_request_error" (Some "invalid_audio_url"))) /\
  actions (create_transcription env rq).1 = [].
Proof. apply invalid_audio_url_outcome. Qed.

Lemma invalid_audio_url_rejected_witness :
  (create_transcription Demo.strict_env Demo.url_request).2 =
    Raise (HTTPException 400
             (format_openai_error
                "Invalid audio URL format or unsupported audio type"
                "invalid_request_error" (Some "invalid_audio_url"))) /\
  actions (create_transcription Demo.strict_env Demo.url_request).1 = [].
Proof.
  apply (invalid_audio_url_rejected Demo.strict_env Demo.url_request
           "sk-test" "https://x.com/a.mp3"); reflexivity.
Defined.

(** ** Requests that go through *)

Section Success.

Context {client request transcript response : Type}.
Variable env : Env client request transcript response.

Lemma success_outcome
    (rq : Inbound) (api_key : string) (c : client) (final_audio_url : string)
    (config_dict : gmap string value)
    (cleaned_prompt language_code speech_model : option string)
    (word_boost : value) (r : request) (tr : transcript) (resp : response) :
  credential rq = Some api_key ->
  AssemblyAIClient env api_key = Return c ->
  audio_obtained env rq c final_audio_url ->
  parse_prompt_for_config env (prompt rq)
    = Return (config_dict, cleaned_prompt) ->
  map_language_code env (language rq) = Return language_code ->
  map_openai_model_to_speech_model env (model rq) = Return speech_model ->
  parse_word_boost env cleaned_prompt = Return word_boost ->
  (truthy (model rq) = true -> speech_model <> None) ->
  AssemblyAITranscriptionRequest env
    (merged_params_of final_audio_url config_dict language_code speech_model
       word_boost) = Return r ->
  transcribe env c r = Return tr ->
  convert_assemblyai_to_openai_response env tr (response_format rq)
    = Return resp ->
  (create_transcription env rq).2 = Return resp /\
  List.filter is_transcribe (create_transcription env rq).1
    = [Transcribe c r].
Proof.
  intros Hcred Hinit Haudio Hparse Hlang Hmodel Hboost Hvalid Hreq Htr Hconv.
  destruct (credential_accepted rq api_key Hcred) as (a & h & Hauth & <- & Hkey).
  assert (truthy (model rq) && opt_is_none speech_model = false) as Hcheck.
  { destruct (truthy (model rq)); [|reflexivity].
    destruct speech_model; [reflexivity|]. exfalso. exact (Hvalid eq_refl eq_refl). }
  unfold audio_obtained in Haudio.
  unfold create_transcription, create_transcription_body, audio_source,
    init_client, read_and_upload, perform_transcription.
  rewrite Hauth, Hkey. cbn [negb].
  destruct (file rq) as [f|].
  - destruct Haudio as (content & Hread & Hup).
    unfold try_except, bind, call, pure_call, logger, raise, ret.
    rewrite Hinit, Hread. cbn [fst snd app]. rewrite Hup. cbn [fst snd app].
    rewrite Hparse, Hlang, Hmodel, Hboost, Hcheck, Hreq, Htr, Hconv.
    destruct (float_nonzero (temperature rq)),
      (truthy (model rq) && opt_truthy speech_model),
      (String.eqb (response_format rq) "text"); split; reflexivity.
  - destruct Haudio as (Hurl & Htruthy & Hvalid_url).
    rewrite Hurl. destruct final_audio_url as [|u url']; [discriminate Htruthy|].
    unfold try_except, bind, call, pure_call, logger, raise, ret.
    rewrite Hvalid_url. cbn [fst snd app negb].
    rewrite Hparse, Hlang, Hmodel, Hboost, Hcheck, Hreq, Hinit, Htr, Hconv.
    destruct (float_nonzero (temperature rq)),
      (truthy (model rq) && opt_truthy speech_model),
      (String.eqb (response_format rq) "text"); split; reflexivity.
Qed.

End Success.

(** X5. When the credential is accepted, the client is constructed, the
    audio URL is obtained (by upload, or from the request and validated),
    the prompt parser and the three mappers return, a non-empty model has a
    mapping, the request model accepts the merged parameters, the provider
    returns a transcript and the converter a payload, the endpoint returns
    that payload, and the provider was asked exactly once, with the
    constructed client and the request built from the merged parameters. *)
Theorem transcription_succeeds
    {client request transcript response : Type}
    (env : Env client request transcript response)
    (rq : Inbound) (api_key : string) (c : client) (final_audio_url : string)
    (config_dict : gmap string value)
    (cleaned_prompt language_code speech_model : option string)
    (word_boost : value) (r : request) (tr : transcript) (resp : response) :
  credential rq = Some api_key ->
  AssemblyAIClient env api_key = Return c ->
  audio_obtained env rq c final_audio_url ->
  parse_prompt_for_config env (prompt rq)
    = Return (config_dict, cleaned_prompt) ->
  map_language_code env (language rq) = Return language_code ->
  map_openai_model_to_speech_model env (model rq) = Return speech_model ->
  parse_word_boost env cleaned_prompt = Return word_boost ->
  (truthy (model rq) = true -> speech_model <> None) ->
  AssemblyAITranscriptionRequest env
    (merged_params_of final_audio_url config_dict language_code speech_model
       word_boost) = Return r ->
  transcribe env c r = Return tr ->
  convert_assemblyai_to_openai_response env tr (response_format rq)
    = Return resp ->
  (create_transcription env rq).2 = Return resp /\
  List.filter is_transcribe (create_transcription env rq).1
    = [Transcribe c r].
Proof. apply success_outcome. Qed.

(** Scenario 1 of the spec. *)
Lemma transcription_succeeds_witness :
  (create_transcription Demo.ok_env Demo.url_request).2 = Return "hello" /\
  List.filter is_transcribe (create_transcription Demo.ok_env Demo.url_request).1
    = [Transcribe "sk-test"
         (merged_params_of "https://x.com/a.mp3" ∅ None (Some "best")
            (VList []))].
Proof.
  apply (transcription_succeeds Demo.ok_env Demo.url_request "sk-test"
           "sk-test" "https://x.com/a.mp3" ∅ None None (Some "best")
           (VList []) _ "hello" "hello"); try reflexivity.
  - repeat split.
  - discriminate.
Defined.

Section SuccessCause.

Context {client request transcript response : Type}.
Variable env : Env client request transcript response.

Lemma success_cause (rq : Inbound) (resp : response) :
  (create_transcription env rq).2 = Return resp ->
  exists api_key c final_audio_url config_dict cleaned_prompt language_code
         speech_model word_boost r tr,
    credential rq = Some api_key /\
    AssemblyAIClient env api_key = Return c /\
    audio_obtained env rq c final_audio_url /\
    parse_prompt_for_config env (prompt rq)
      = Return (config_dict, cleaned_prompt) /\
    map_language_code env (language rq) = Return language_code /\
    map_openai_model_to_speech_model env (model rq) = Return speech_model /\
    parse_word_boost env cleaned_prompt = Return word_boost /\
    (truthy (model rq) = true -> speech_model <> None) /\
    AssemblyAITranscriptionRequest env
      (merged_params_of final_audio_url config_dict language_code
         speech_model word_boost) = Return r /\
    transcribe env c r = Return tr /\
    convert_assemblyai_to_openai_response env tr (response_format rq)
      = Return resp.
Proof.
  destruct (credential rq) as [api_key|] eqn:Hcred.
  2: { unfold credential in Hcred.
       unfold create_transcription, create_transcription_body.
       destruct (authorization rq) as [[|a h]|]; try discriminate 1.
       destruct (truthy (extract_api_key (String a h)));
         [discriminate Hcred | discriminate 1]. }
  destruct (credential_accepted rq api_key Hcred) as (a & h & Hauth & <- & Hkey).
  run_both (create_transcription env rq).
  unfold create_transcription, create_transcription_body.
  rewrite Hauth, Hkey. cbn [negb].
  run_all.
  all: subst Q; intros Hret; try discriminate Hret; injection Hret as <-.
  all: do 10 eexists.
  all: split; [reflexivity|]; split; [eassumption|]; split.
  all: try (split; [reflexivity|]; split; [reflexivity|];
            split; [reflexivity|]; split; [eassumption|]; split;
            [| split; [eassumption|]; split; eassumption]).
  all: try match goal with
           | H : truthy _ && opt_is_none _ = false |- _ -> _ =>
               intros Ht ->; rewrite Ht in H; discriminate H
           end.
  all: unfold audio_obtained;
       match goal with H : file _ = _ |- _ => rewrite H end.
  all: first
    [ eexists; split; eassumption
    | split; [eassumption|]; split; [reflexivity|];
      match goal with
      | H : negb ?b = false |- _ => destruct b; [eassumption | discriminate H]
      end ].
Qed.
End SuccessCause.

(** X6. Conversely the endpoint returns a payload only in that way: there
    are an accepted credential, a client constructed with it, an audio URL
    obtained, results of the parser and of the mappers, a request built from
    the merged parameters, and a transcript the provider returned for that
    request with that client, of which the payload is the conversion. *)
Theorem response_comes_from_provider
    {client request transcript response : Type}
    (env : Env client request transcript response)
    (rq : Inbound) (resp : response) :
  (create_transcription env rq).2 = Return resp ->
  exists api_key c final_audio_url config_dict cleaned_prompt language_code
         speech_model word_boost r tr,
    credential rq = Some api_key /\
    AssemblyAIClient env api_key = Return c /\
    audio_obtained env rq c final_audio_url /\
    parse_prompt_for_config env (prompt rq)
      = Return (config_dict, cleaned_prompt) /\
    map_language_code env (language rq) = Return language_code /\
    map_openai_model_to_speech_model env (model rq) = Return speech_model /\
    parse_word_boost env cleaned_prompt = Return word_boost /\
    (truthy (model rq) = true -> speech_model <> None) /\
    AssemblyAITranscriptionRequest env
      (merged_params_of final_audio_url config_dict language_code
         speech_model word_boost) = Return r /\
    transcribe env c r = Return tr /\
    convert_assemblyai_to_openai_response env tr (response_format rq)
      = Return resp.
Proof. apply success_cause. Qed.

Lemma response_comes_from_provider_witness :
  exists api_key c,
    credential Demo.file_request = Some api_key /\
    AssemblyAIClient Demo.ok_env api_key = Return c.
Proof.
  destruct (response_comes_from_provider Demo.ok_env Demo.file_request
              "hello" eq_refl)
    as (api_key & c & _ & _ & _ & _ & _ & _ & _ & _ & Hcred & Hinit & _).
  exists api_key, c. split; assumption.
Defined.

Section RejectedRequestModel.

Context {client request transcript response : Type}.
Variable env : Env client request transcript response.

(** Line 234 stands outside every inner [try]: when the request model
    refuses the merged parameters, only the outer handler sees it. *)
Lemma rejected_parameters_outcome
    (rq : Inbound) (api_key : string) (c : client) (final_audio_url : string)
    (config_dict : gmap string value)
    (cleaned_prompt language_code speech_model : option string)
    (word_boost : value) (e : exn) :
  credential rq = Some api_key ->
  AssemblyAIClient env api_key = Return c ->
  audio_obtained env rq c final_audio_url ->
  parse_prompt_for_config env (prompt rq)
    = Return (config_dict, cleaned_prompt) ->
  map_language_code env (language rq) = Return language_code ->
  map_openai_model_to_speech_model env (model rq) = Return speech_model ->
  parse_word_boost env cleaned_prompt = Return word_boost ->
  (truthy (model rq) = true -> speech_model <> None) ->
  AssemblyAITranscriptionRequest env
    (merged_params_of final_audio_url config_dict language_code speech_model
       word_boost) = Raise e ->
  (create_transcription env rq).2 =
    Raise (if is_http e then e else internal_server_error) /\
  List.filter is_transcribe (create_transcription env rq).1 = [] /\
  (file rq = None -> actions (create_transcription env rq).1 = []).
Proof.
  intros Hcred Hinit Haudio Hparse Hlang Hmodel Hboost Hvalid Hreq.
  destruct (credential_accepted rq api_key Hcred) as (a & h & Hauth & <- & Hkey).
  assert (truthy (model rq) && opt_is_none speech_model = false) as Hcheck.
  { destruct (truthy (model rq)); [|reflexivity].
    destruct speech_model; [reflexivity|]. exfalso.
    exact (Hvalid eq_refl eq_refl). }
  unfold audio_obtained in Haudio.
  unfold create_transcription, create_transcription_body, audio_source,
    init_client, read_and_upload, perform_transcription.
  rewrite Hauth, Hkey. cbn [negb].
  destruct (file rq) as [f|].
  - destruct Haudio as (content & Hread & Hup).
    unfold try_except, bind, call, pure_call, logger, raise, ret.
    rewrite Hinit, Hread. cbn [fst snd app]. rewrite Hup. cbn [fst snd app].
    rewrite Hparse, Hlang, Hmodel, Hboost, Hcheck, Hreq.
    destruct (float_nonzero (temperature rq)),
      (truthy (model rq) && opt_truthy speech_model), e;
      (split; [reflexivity | split; [reflexivity | discriminate]]).
  - destruct Haudio as (Hurl & Htruthy & Hvalid_url).
    rewrite Hurl. destruct final_audio_url as [|u url']; [discriminate Htruthy|].
    unfold try_except, bind, call, pure_call, logger, raise, ret.
    rewrite Hvalid_url. cbn [fst snd app negb].
    rewrite Hparse, Hlang, Hmodel, Hboost, Hcheck, Hreq.
    destruct (float_nonzero (temperature rq)),
      (truthy (model rq) && opt_truthy speech_model), e;
      (split; [reflexivity | split; reflexivity]).
Qed.

End RejectedRequestModel.

(** X7. The request model is built outside every inner [try]: when it
    refuses the merged parameters, an [HTTPException] reaches the caller as
    it is and anything else, a validation error included, is answered with
    the fixed 500 api_error "Internal server error" rather than with an
    invalid_request_error; the provider is never asked to transcribe, and
    for a request without a file nothing but logging has happened. *)
Theorem rejected_parameters_are_internal_error
    {client request transcript response : Type}
    (env : Env client request transcript response)
    (rq : Inbound) (api_key : string) (c : client) (final_audio_url : string)
    (config_dict : gmap string value)
    (cleaned_prompt language_code speech_model : option string)
    (word_boost : value) (e : exn) :
  credential rq = Some api_key ->
  AssemblyAIClient env api_key = Return c ->
  audio_obtained env rq c final_audio_url ->
  parse_prompt_for_config env (prompt rq)
    = Return (config_dict, cleaned_prompt) ->
  map_language_code env (language rq) = Return language_code ->
  map_openai_model_to_speech_model env (model rq) = Return speech_model ->
  parse_word_boost env cleaned_prompt = Return word_boost ->
  (truthy (model rq) = true -> speech_model <> None) ->
  AssemblyAITranscriptionRequest env
    (merged_params_of final_audio_url config_dict language_code speech_model
       word_boost) = Raise e ->
  (create_transcription env rq).2 =
    Raise (if is_http e then e else internal_server_error) /\
  List.filter is_transcribe (create_transcription env rq).1 = [] /\
  (file rq = None -> actions (create_transcription env rq).1 = []).
Proof. apply rejected_parameters_outcome. Qed.

Lemma rejected_parameters_are_internal_error_witness :
  (create_transcription Demo.unbuildable_env Demo.url_request).2 =
    Raise (HTTPException 500
             (format_openai_error "Internal server error" "api_error" None)).
Proof.
  refine (proj1 (rejected_parameters_are_internal_error Demo.unbuildable_env
                   Demo.url_request "sk-test" "sk-test" "https://x.com/a.mp3"
                   ∅ None None (Some "best") (VList [])
                   (ValueError
                      "1 validation error for AssemblyAITranscriptionRequest")
                   eq_refl eq_refl _ eq_refl eq_refl eq_refl eq_refl _
                   eq_refl)).
  - repeat split.
  - discriminate.
Defined.

Section ModelAfterUpload.

Context {client request transcript response : Type}.
Variable env : Env client request transcript response.

(** The model is looked at (lines 198-208) after the audio source has been
    dealt with (lines 116-177). *)
Lemma unmapped_model_after_upload
    (rq : Inbound) (api_key : string) (f : UploadFile) (c : client)
    (file_content : list Byte.byte) (final_audio_url : string)
    (config_dict : gmap string value)
    (cleaned_prompt language_code : option string) (word_boost : value) :
  credential rq = Some api_key ->
  file rq = Some f ->
  AssemblyAIClient env api_key = Return c ->
  read f = Return file_content ->
  upload_file env c file_content (filename f) = Return final_audio_url ->
  parse_prompt_for_config env (prompt rq)
    = Return (config_dict, cleaned_prompt) ->
  map_language_code env (language rq) = Return language_code ->
  parse_word_boost env cleaned_prompt = Return word_boost ->
  truthy (model rq) = true ->
  map_openai_model_to_speech_model env (model rq) = Return None ->
  (create_transcription env rq).2 =
    Raise (HTTPException 400
             (format_openai_error
                ("Invalid model '" +:+ model rq +:+
                 "'. Valid AssemblyAI speech models are: best, slam-1, universal")
                "invalid_request_error" (Some "invalid_model"))) /\
  actions (create_transcription env rq).1 =
    [ClientInit api_key; FileRead; Upload c file_content (filename f)].
Proof.
  intros Hcred Hfile Hinit Hread Hup Hparse Hlang Hboost Hmodel Hmap.
  destruct (credential_accepted rq api_key Hcred) as (a & h & Hauth & <- & Hkey).
  unfold create_transcription, create_transcription_body, audio_source,
    init_client, read_and_upload.
  rewrite Hauth, Hkey, Hfile. cbn [negb].
  unfold try_except, bind, call, pure_call, logger, raise, ret.
  rewrite Hinit, Hread. cbn [fst snd app]. rewrite Hup. cbn [fst snd app].
  rewrite Hparse, Hlang, Hmap, Hboost, Hmodel.
  destruct (float_nonzero (temperature rq)); split; reflexivity.
Qed.

End ModelAfterUpload.


(** X8. The model is validated only after the audio source has been dealt
    with: a request with an uploaded file and a non-empty model that has no
    mapping is answered 400 invalid_model, but by then the client has been
    constructed and the file read and uploaded to the provider. *)
Theorem invalid_model_detected_after_upload
    {client request transcript response : Type}
    (env : Env client request transcript response)
    (rq : Inbound) (api_key : string) (f : UploadFile) (c : client)
    (file_content : list Byte.byte) (final_audio_url : string)
    (config_dict : gmap string value)
    (cleaned_prompt language_code : option string) (word_boost : value) :
  credential rq = Some api_key ->
  file rq = Some f ->
  AssemblyAIClient env api_key = Return c ->
  read f = Return file_content ->
  upload_file env c file_content (filename f) = Return final_audio_url ->
  parse_prompt_for_config env (prompt rq)
    = Return (config_dict, cleaned_prompt) ->
  map_language_code env (language rq) = Return language_code ->
  parse_word_boost env cleaned_prompt = Return word_boost ->
  truthy (model rq) = true ->
  map_openai_model_to_speech_model env (model rq) = Return None ->
  (create_transcription env rq).2 =
    Raise (HTTPException 400
             (format_openai_error
                ("Invalid model '" +:+ model rq +:+
                 "'. Valid AssemblyAI speech models are: best, slam-1, universal")
                "invalid_request_error" (Some "invalid_model"))) /\
  actions (create_transcription env rq).1 =
    [ClientInit api_key; FileRead; Upload c file_content (filename f)].
Proof. apply unmapped_model_after_upload. Qed.

Lemma invalid_model_detected_after_upload_witness :
  actions (create_transcription Demo.ok_env
             (Demo.with_model "invalid-model-xyz" Demo.file_request)).1 =
    [ClientInit "sk-test"; FileRead; Upload "sk-test" [] (Some "a.mp3")].
Proof.
  refine (proj2 (invalid_model_detected_after_upload Demo.ok_env
                   (Demo.with_model "invalid-model-xyz" Demo.file_request)
                   "sk-test" Demo.clip "sk-test" []
                   "https://cdn.example/upload/1" ∅ None None (VList [])
                   eq_refl eq_refl eq_refl eq_refl eq_refl eq_refl eq_refl
                   eq_refl eq_refl eq_refl)).
Defined.

Section Completion.

Context {client request transcript response : Type}.
Variable env : Env client request transcript response.

Lemma completion_record_cases (rq : Inbound) :
  In completion_record (create_transcription env rq).1 <->
  (exists resp, (create_transcription env rq).2 = Return resp) /\
  String.eqb (response_format rq) "text" = false.
Proof.
  run_both (create_transcription env rq).
  run_all.
  all: subst Q; optional_logs; unfold completion_record; cbn [app In].
  all: split.
  all: try (intros [[resp Hresp] Hfmt]; try discriminate Hresp;
      try discriminate Hfmt;
      repeat (first [left; reflexivity | right]); fail).
  all: try (intros Hin;
      repeat (destruct Hin as [Hin | Hin]; [try discriminate Hin|]);
      try contradiction Hin; fail).
  all: intros _; split; [eexists; reflexivity | reflexivity].
Qed.

End Completion.

(** X9. The record "Transcription request completed successfully" is
    logged exactly when the endpoint returns a payload and the response
    format is not ["text"]: the text format returns before it, every
    failure raises before it. *)
Theorem completion_record_logged
    {client request transcript response : Type}
    (env : Env client request transcript response) (rq : Inbound) :
  In completion_record (create_transcription env rq).1 <->
  (exists resp, (create_transcription env rq).2 = Return resp) /\
  String.eqb (response_format rq) "text" = false.
Proof. apply completion_record_cases. Qed.

(** ** Where the credential goes *)

Section Credential.

Context {client request transcript response : Type}.
Variable env : Env client request transcript response.

Lemma same_but_key_refl {A} (m : M client request A) : same_but_key m m.
Proof. split; reflexivity. Qed.

Lemma same_but_key_bind {A B} (m1 m2 : M client request A) (k1 k2 : A -> M client request B) :
  same_but_key m1 m2 ->
  (forall a, same_but_key (k1 a) (k2 a)) ->
  same_but_key (bind m1 k1) (bind m2 k2).
Proof.
  unfold same_but_key, bind.
  destruct m1 as [t1 o1], m2 as [t2 o2]. cbn [fst snd].
  intros [<- Ht] Hk. destruct o1 as [a | e]; [|split; [reflexivity | exact Ht]].
  specialize (Hk a). destruct (k1 a) as [t1' r1], (k2 a) as [t2' r2].
  cbn [fst snd] in *. destruct Hk as [-> Ht'].
  split; [reflexivity|]. rewrite !List.map_app, Ht, Ht'. reflexivity.
Qed.

Lemma same_but_key_try_except {A} (m1 m2 : M client request A)
    (h1 h2 : exn -> option (M client request A)) :
  same_but_key m1 m2 ->
  (forall e, match h1 e, h2 e with
             | Some m1', Some m2' => same_but_key m1' m2'
             | None, None => True
             | _, _ => False
             end) ->
  same_but_key (try_except m1 h1) (try_except m2 h2).
Proof.
  unfold same_but_key, try_except.
  destruct m1 as [t1 o1], m2 as [t2 o2]. cbn [fst snd].
  intros [<- Ht] Hh. destruct o1 as [a | e]; [split; [reflexivity | exact Ht]|].
  specialize (Hh e).
  destruct (h1 e) as [[t1' r1]|], (h2 e) as [[t2' r2]|];
    try contradiction Hh; cbn [fst snd] in *.
  - destruct Hh as [-> Ht']. split; [reflexivity|].
    rewrite !List.map_app, Ht, Ht'. reflexivity.
  - split; [reflexivity | exact Ht].
Qed.

(** Two keys for which the constructor answers alike give runs of the
    constructor that differ in the key of the call only. *)
Lemma same_but_key_init_client (k1 k2 : string) :
  AssemblyAIClient env k1 = AssemblyAIClient env k2 ->
  same_but_key (init_client env k1) (init_client env k2).
Proof.
  intros H. unfold init_client, call. rewrite H.
  apply same_but_key_try_except; [split; reflexivity|].
  intros [s d | msg | cls msg]; try exact I. apply same_but_key_refl.
Qed.

End Credential.

(** Relate two runs of the same code, step by step. *)
Ltac same_but_key_step :=
  lazymatch goal with
  | |- same_but_key ?a ?b =>
      first
        [ constr_eq a b; apply same_but_key_refl
        | apply same_but_key_init_client; assumption
        | apply same_but_key_bind; [|intros ?]
        | lazymatch a with
          | match ?x with _ => _ end => destruct x
          | if ?x then _ else _ => destruct x
          end ]
  end.

Section CredentialFlow.

Context {client request transcript response : Type}.
Variable env : Env client request transcript response.

Lemma credential_flow (rq : Inbound) (h1 h2 : option string) (k1 k2 : string) :
  credential (with_header h1 rq) = Some k1 ->
  credential (with_header h2 rq) = Some k2 ->
  AssemblyAIClient env k1 = AssemblyAIClient env k2 ->
  same_but_key (create_transcription env (with_header h1 rq))
    (create_transcription env (with_header h2 rq)).
Proof.
  intros H1 H2 Hinit.
  destruct (credential_accepted _ _ H1) as (a1 & s1 & Hh1 & Hk1 & Ht1).
  destruct (credential_accepted _ _ H2) as (a2 & s2 & Hh2 & Hk2 & Ht2).
  cbn [with_header authorization] in Hh1, Hh2. subst h1 h2.
  unfold create_transcription, create_transcription_body, audio_source.
  cbn [with_header authorization file model language prompt response_format
       temperature audio_url].
  rewrite Ht1, Ht2, Hk1, Hk2. cbn [negb].
  apply same_but_key_try_except.
  2: { intros [s d | msg | cls msg]; apply same_but_key_refl. }
  repeat same_but_key_step.
Qed.

(** Blanking the keys leaves the log records as they are. *)
Lemma logs_forget_key (t : list (event client request)) :
  List.filter is_log (List.map forget_key t) = List.filter is_log t.
Proof.
  induction t as [|ev t IH]; [reflexivity|].
  destruct ev; cbn [List.map List.filter forget_key is_log]; rewrite IH;
    reflexivity.
Qed.

(** Lines 100-105 on a header that carries the prefix. *)
Lemma extract_api_key_bearer (k : string) :
  extract_api_key ("Bearer " +:+ k) = k.
Proof. reflexivity. Qed.

Lemma bearer_prefix_run (rq : Inbound) (k : string) :
  k <> EmptyString ->
  startswith "Bearer " k = false ->
  create_transcription env (with_header (Some ("Bearer " +:+ k)) rq) =
  create_transcription env (with_header (Some k) rq).
Proof.
  intros Hne Hbare.
  destruct k as [|a k']; [contradiction Hne; reflexivity|].
  assert (extract_api_key (String a k') = String a k') as Hwhole
    by (unfold extract_api_key; rewrite Hbare; reflexivity).
  pose proof (extract_api_key_bearer (String a k')) as Hstripped.
  change ("Bearer " +:+ String a k')
    with (String "B" ("earer " +:+ String a k')) in *.
  unfold create_transcription, create_transcription_body.
  cbn [with_header authorization file model language prompt response_format
       temperature audio_url].
  rewrite Hwhole, Hstripped. reflexivity.
Qed.

End CredentialFlow.

(** X10. The credential goes to the client constructor and nowhere else: two
    requests that differ in their authorization header only, both with an
    accepted credential, for which the constructor answers alike, end alike,
    log the same records, and their traces are the same once the key given
    to the constructor is blanked. *)
Theorem credential_only_names_the_client
    {client request transcript response : Type}
    (env : Env client request transcript response)
    (rq : Inbound) (h1 h2 : option string) (k1 k2 : string) :
  credential (with_header h1 rq) = Some k1 ->
  credential (with_header h2 rq) = Some k2 ->
  AssemblyAIClient env k1 = AssemblyAIClient env k2 ->
  (create_transcription env (with_header h1 rq)).2 =
  (create_transcription env (with_header h2 rq)).2 /\
  List.map forget_key (create_transcription env (with_header h1 rq)).1 =
  List.map forget_key (create_transcription env (with_header h2 rq)).1 /\
  List.filter is_log (create_transcription env (with_header h1 rq)).1 =
  List.filter is_log (create_transcription env (with_header h2 rq)).1.
Proof.
  intros H1 H2 Hinit.
  destruct (credential_flow env rq h1 h2 k1 k2 H1 H2 Hinit) as [Hout Htrace].
  split; [exact Hout|]. split; [exact Htrace|].
  rewrite <- (logs_forget_key (create_transcription env (with_header h1 rq)).1),
    Htrace.
  apply logs_forget_key.
Qed.

Lemma credential_only_names_the_client_witness :
  List.filter is_log
    (create_transcription Demo.shared_client_env
       (with_header (Some "Bearer sk-one") Demo.url_request)).1 =
  List.filter is_log
    (create_transcription Demo.shared_client_env
       (with_header (Some "sk-two") Demo.url_request)).1.
Proof.
  apply (credential_only_names_the_client Demo.shared_client_env
           Demo.url_request (Some "Bearer sk-one") (Some "sk-two")
           "sk-one" "sk-two"); reflexivity.
Defined.

(** X11. The ["Bearer "] prefix is optional: a key that is not empty and does
    not itself start with ["Bearer "] gives the same run, trace and outcome,
    whether the header carries it bare or after the prefix. *)
Theorem bearer_prefix_optional
    {client request transcript response : Type}
    (env : Env client request transcript response)
    (rq : Inbound) (k : string) :
  k <> EmptyString ->
  startswith "Bearer " k = false ->
  extract_api_key ("Bearer " +:+ k) = k /\
  extract_api_key k = k /\
  create_transcription env (with_header (Some ("Bearer " +:+ k)) rq) =
  create_transcription env (with_header (Some k) rq).
Proof.
  intros Hne Hbare. split; [apply extract_api_key_bearer|]. split.
  - unfold extract_api_key. rewrite Hbare. reflexivity.
  - apply bearer_prefix_run; assumption.
Qed.

Lemma bearer_prefix_optional_witness :
  create_transcription Demo.ok_env
    (with_header (Some ("Bearer " +:+ "sk-test")) Demo.url_request) =
  create_transcription Demo.ok_env
    (with_header (Some "sk-test") Demo.url_request).
Proof.
  apply (bearer_prefix_optional Demo.ok_env Demo.url_request "sk-test").
  - discriminate.
  - reflexivity.
Defined.

(** ** What the provider is sent *)

Section WhatIsSent.

Lemma drop_none_lookup (m : gmap string value) (k : string) :
  drop_none m !! k = match m !! k with Some VNone => None | other => other end.
Proof.
  destruct (m !! k) as [v|] eqn:Hm.
  - destruct (is_none v) eqn:Hv.
    + destruct v; try discriminate Hv.
      apply drop_none_lookup_None. right. exact Hm.
    + transitivity (Some v); [|destruct v; try reflexivity; discriminate Hv].
      apply drop_none_lookup_Some. split; [exact Hm|].
      intros ->. discriminate Hv.
  - apply drop_none_lookup_None. left. exact Hm.
Qed.

Variables (final_audio_url : string) (config_dict : gmap string value).
Variables (language_code speech_model : option string) (word_boost : value).

(** What is sent under a key the configuration has. *)
Lemma sent_configured (k : string) (v : value) :
  config_dict !! k = Some v ->
  merged_params_of final_audio_url config_dict language_code speech_model
    word_boost !! k
  = if is_none v then None else Some v.
Proof.
  intros Hc. unfold merged_params_of.
  rewrite drop_none_lookup, (merge_params_config _ _ _ _ Hc).
  destruct v; reflexivity.
Qed.

(** What is sent under a key the configuration is silent on. *)
Lemma sent_default (k : string) :
  config_dict !! k = None ->
  merged_params_of final_audio_url config_dict language_code speech_model
    word_boost !! k =
    drop_none (base_params_of final_audio_url language_code speech_model
                 word_boost (VBool false)) !! k.
Proof.
  intros Hsilent. unfold merged_params_of.
  rewrite !drop_none_lookup, (merge_params_base _ _ _ Hsilent).
  destruct (decide ("speaker_labels" = k)) as [<- | Hne].
  - rewrite Hsilent. reflexivity.
  - unfold base_params_of. rewrite !lookup_insert.
    repeat (destruct (decide _) as [<- | ?];
            [first [reflexivity | contradiction Hne; reflexivity]|]).
    reflexivity.
Qed.

(** The defaults themselves. *)
Lemma defaults_sent :
  let defaults :=
    drop_none (base_params_of final_audio_url language_code speech_model
                 word_boost (VBool false)) in
  defaults !! "audio_url" = Some (VStr final_audio_url) /\
  defaults !! "punctuate" = Some (VBool true) /\
  defaults !! "format_text" = Some (VBool true) /\
  defaults !! "speaker_labels" = Some (VBool false) /\
  defaults !! "language_code" = VStr <$> language_code /\
  defaults !! "speech_model" = VStr <$> speech_model /\
  defaults !! "word_boost"
    = (if is_none word_boost then None else Some word_boost).
Proof.
  cbv zeta. rewrite !drop_none_lookup.
  repeat split; try reflexivity.
  - destruct language_code; reflexivity.
  - destruct speech_model; reflexivity.
  - destruct word_boost; reflexivity.
Qed.

(** A key that is sent comes from the configuration or is one of the seven
    of the literal. *)
Lemma sent_keys (k : string) (v : value) :
  merged_params_of final_audio_url config_dict language_code speech_model
    word_boost !! k = Some v ->
  config_dict !! k = Some v \/
  In k ["audio_url"; "language_code"; "speech_model"; "word_boost";
        "speaker_labels"; "punctuate"; "format_text"].
Proof.
  unfold merged_params_of. intros H.
  apply drop_none_lookup_Some in H as [H _].
  unfold merge_params in H. apply lookup_union_Some_raw in H as [H | [_ H]];
    [left; exact H | right].
  unfold base_params_of in H.
  repeat (apply lookup_insert_Some in H as [[<- _] | [_ H]];
          [cbn [In]; tauto|]).
  rewrite lookup_empty in H. discriminate H.
Qed.

End WhatIsSent.

(** X12. Under a key the prompt configuration is silent on, the provider is
    sent the default of lines 215-223: the audio URL obtained, punctuation
    and text formatting on, speaker labels off, the mapped language and
    speech model when there is one, and the word boost unless it is
    [None]. *)
Theorem sent_parameter_defaults
    (final_audio_url : string) (config_dict : gmap string value)
    (language_code speech_model : option string) (word_boost : value) :
  let sent :=
    merged_params_of final_audio_url config_dict language_code speech_model
      word_boost in
  (config_dict !! "audio_url" = None ->
   sent !! "audio_url" = Some (VStr final_audio_url)) /\
  (config_dict !! "punctuate" = None ->
   sent !! "punctuate" = Some (VBool true)) /\
  (config_dict !! "format_text" = None ->
   sent !! "format_text" = Some (VBool true)) /\
  (config_dict !! "speaker_labels" = None ->
   sent !! "speaker_labels" = Some (VBool false)) /\
  (config_dict !! "language_code" = None ->
   sent !! "language_code" = VStr <$> language_code) /\
  (config_dict !! "speech_model" = None ->
   sent !! "speech_model" = VStr <$> speech_model) /\
  (config_dict !! "word_boost" = None ->
   sent !! "word_boost"
     = if is_none word_boost then None else Some word_boost).
Proof.
  cbv zeta.
  destruct (defaults_sent final_audio_url language_code speech_model
              word_boost) as (H1 & H2 & H3 & H4 & H5 & H6 & H7).
  repeat split; intros Hsilent;
    rewrite (sent_default _ _ _ _ _ _ Hsilent); assumption.
Qed.

Lemma sent_parameter_defaults_witness :
  merged_params_of "https://x.com/a.mp3" {["speaker_labels" := VBool true]}
    None (Some "best") (VList []) !! "punctuate" = Some (VBool true).
Proof.
  apply (proj1 (proj2 (sent_parameter_defaults "https://x.com/a.mp3"
                         {["speaker_labels" := VBool true]} None (Some "best")
                         (VList [])))).
  reflexivity.
Defined.

(** X13. What the provider is sent has no other keys than those of the
    prompt configuration and the seven defaults; and a key the
    configuration sets to [None] is not sent at all, a default of that name
    included. *)
Theorem sent_parameter_sources
    (final_audio_url : string) (config_dict : gmap string value)
    (language_code speech_model : option string) (word_boost : value) :
  let sent :=
    merged_params_of final_audio_url config_dict language_code speech_model
      word_boost in
  (forall k v,
     sent !! k = Some v ->
     config_dict !! k = Some v \/
     In k ["audio_url"; "language_code"; "speech_model"; "word_boost";
           "speaker_labels"; "punctuate"; "format_text"]) /\
  (forall k, config_dict !! k = Some VNone -> sent !! k = None).
Proof.
  cbv zeta. split.
  - apply sent_keys.
  - intros k Hnull.
    rewrite (sent_configured _ _ _ _ _ _ _ Hnull). reflexivity.
Qed.

Lemma sent_parameter_sources_witness :
  merged_params_of "https://x.com/a.mp3" {["punctuate" := VNone]}
    None (Some "best") (VList []) !! "punctuate" = None.
Proof.
  apply (proj2 (sent_parameter_sources "https://x.com/a.mp3"
                  {["punctuate" := VNone]} None (Some "best") (VList []))).
  reflexivity.
Defined.
